(** * The POST /api/ai endpoint of server.js

    A shallow embedding of the request handler of [src/server.js] and of
    its helper [buildGeminiBody], with the properties of its
    request/response contract.

    - JSON data (the parsed request body, the parsed upstream body, the
      payload sent upstream) is the inductive type [json]; a JavaScript
      expression that may evaluate to [undefined] has type [option json],
      with [None] for [undefined].
    - The handler is written in a small monad [M] that records the
      effects the source performs (the outbound [fetch] call and the
      [console.error] lines) in a trace, and that carries JavaScript
      exceptions, so that [try]/[catch] is modelled as written; a
      computation may also stay pending for ever, on an [await] that never
      settles.
    - What the outside world answers to the outbound call is an oracle,
      the field [fetch] of [world].
    - The process environment is a finite map from names to strings.

    - The logging middleware is the module [Logger]: the calls to
      [randomUUID] and to the clock, and whether the response emits
      [finish], are readings given from outside.
    - The prompt builder is embedded twice: as a function on JSON values,
      used by the handler, and over an explicit store of objects (module
      [Store]), to state what it does to the state of the program.

    CORS, the JSON body parser and the static file server are library
    code and are not embedded. *)

From Stdlib Require Import ZArith String Ascii List Bool DecimalString.
From Stdlib Require Import Floats.SpecFloat.
From stdpp Require Import base option gmap strings list fin_maps.

Local Open Scope string_scope.

#[local] Set Warnings "-register-all".

(** ** JSON values *)

Module JS.

(** A JavaScript string is represented by a [string]; its characters stand
    for the code units of the JavaScript string.  A JavaScript number is an
    IEEE 754 binary64 value, [spec_float].  An object is a finite map from
    property names to values. *)
Inductive json : Type :=
  | JNull
  | JBool (b : bool)
  | JNum (f : spec_float)
  | JStr (s : string)
  | JArr (l : list json)
  | JObj (m : gmap string json).

(** ToBoolean on a number: zeros and NaN are falsy. *)
Definition number_truthy (f : spec_float) : bool :=
  match f with
  | S754_zero _ => false
  | S754_nan => false
  | S754_infinity _ => true
  | S754_finite _ _ _ => true
  end.

(** ToBoolean on a string: only the empty string is falsy. *)
Definition string_truthy (s : string) : bool :=
  match s with
  | EmptyString => false
  | String _ _ => true
  end.

(** ToBoolean on a JSON value. *)
Definition truthy (v : json) : bool :=
  match v with
  | JNull => false
  | JBool b => b
  | JNum f => number_truthy f
  | JStr s => string_truthy s
  | JArr _ => true
  | JObj _ => true
  end.

(** ToBoolean on an expression that may be [undefined]. *)
Definition truthy_opt (v : option json) : bool :=
  match v with
  | None => false
  | Some x => truthy x
  end.

(** [typeof v === 'string'] *)
Definition typeof_string (v : json) : bool :=
  match v with
  | JStr _ => true
  | _ => false
  end.

(** The two forms of property key the source uses: an identifier
    ([data.candidates]) and an array index ([parts[0]]). *)
Inductive prop_key : Type :=
  | Name (s : string)
  | Index (i : nat).

(** The property name an index denotes: its decimal numeral. *)
Definition index_name (i : nat) : string :=
  NilEmpty.string_of_uint (Nat.to_uint i).

(** [v[k]] for a value [v] that is neither [null] nor [undefined].  The
    names read by the source ([query], [promptFeedback], [blockReason],
    [candidates], [content], [parts], [text]) are defined on none of the
    built-in prototypes, so a read finds an own property or nothing:
    - an object answers with its own property, an index being read as the
      property named by its numeral;
    - an array answers to an index with its element, to these names with
      [undefined];
    - a string answers to an index with the one-character string at that
      position, to these names with [undefined];
    - numbers and booleans answer [undefined].
    A read on [null] throws in JavaScript; [opt_chain] and [destructure],
    the only callers, test for [null] before they read, so that case is
    never reached and is given [None] here. *)
Definition get_property (v : json) (k : prop_key) : option json :=
  match v, k with
  | JObj m, Name s => m !! s
  | JObj m, Index i => m !! index_name i
  | JArr l, Index i => l !! i
  | JArr _, Name _ => None
  | JStr s, Index i =>
      match String.get i s with
      | Some c => Some (JStr (String c EmptyString))
      | None => None
      end
  | JStr _, Name _ => None
  | JNum _, _ => None
  | JBool _, _ => None
  | JNull, _ => None
  end.

(** [v?.k]: [undefined] when [v] is [null] or [undefined], the property
    read otherwise. *)
Definition opt_chain (v : option json) (k : prop_key) : option json :=
  match v with
  | None => None
  | Some JNull => None
  | Some x => get_property x k
  end.

(** A chain [v?.k1?.k2 ... ?.kn]. *)
Definition opt_path (v : option json) (ks : list prop_key) : option json :=
  fold_left opt_chain ks v.

(** [a || b] where [a] may be [undefined] and [b] is a value. *)
Definition or_else (a : option json) (b : json) : json :=
  match a with
  | Some x => if truthy x then x else b
  | None => b
  end.

(** A thrown JavaScript error. *)
Record js_error : Type := JsError { err_name : string; err_message : string }.

(** Object destructuring [const { k } = v]: [null] cannot be destructured,
    any other value is read at [k]. *)
Definition destructure (v : json) (k : string) : js_error + option json :=
  match v with
  | JNull => inl (JsError "TypeError" "Cannot destructure property of null")
  | _ => inr (get_property v (Name k))
  end.

End JS.

(** ** Effects: a trace of events and exceptions *)

Module Eff.
Import JS.

(** The body of an outbound request: the text [JSON.stringify] makes of a
    value, kept symbolic. *)
Inductive wire_body : Type :=
  | JSON_stringify (v : json).

(** The second argument of [fetch]. *)
Record fetch_init : Type := FetchInit {
  method : string;
  headers : list (string * string);
  body : wire_body
}.

(** An argument of [console.error]. *)
Inductive log_arg : Type :=
  | LogStr (s : string)
  | LogNum (z : Z)
  | LogVal (v : option json)
  | LogErr (e : js_error).

(** What the handler does to the outside world. *)
Inductive event : Type :=
  | Fetch (url : string) (init : fetch_init)
  | ConsoleError (args : list log_arg).

(** How a computation ends: with a value, with a thrown error, or not at
    all, when it awaits a promise that never settles. *)
Inductive completion (A : Type) : Type :=
  | Normal (a : A)
  | Throw (e : js_error)
  | Pending.
Arguments Normal {A} a.
Arguments Throw {A} e.
Arguments Pending {A}.

(** A computation: the events it performed, in order, and how it ended. *)
Definition M (A : Type) : Type := (list event * completion A)%type.

Definition ret {A} (a : A) : M A := ([], Normal a).

Definition bind {A B} (m : M A) (f : A -> M B) : M B :=
  match m with
  | (t, Normal a) => let '(t', r) := f a in ((t ++ t')%list, r)
  | (t, Throw e) => (t, Throw e)
  | (t, Pending) => (t, Pending)
  end.

Definition throw {A} (e : js_error) : M A := ([], Throw e).

(** An [await] on a promise that never settles. *)
Definition never {A} : M A := ([], Pending).

(** [try { m } catch (err) { h err }] *)
Definition try_catch {A} (m : M A) (h : js_error -> M A) : M A :=
  match m with
  | (t, Normal a) => (t, Normal a)
  | (t, Throw e) => let '(t', r) := h e in ((t ++ t')%list, r)
  | (t, Pending) => (t, Pending)
  end.

Definition emit (ev : event) : M unit := ([ev], Normal tt).

Definition lift {A} (r : js_error + A) : M A :=
  match r with
  | inl e => throw e
  | inr a => ret a
  end.

#[global] Instance M_ret : MRet M := @ret.
#[global] Instance M_bind : MBind M := fun A B f m => bind m f.

Definition console_error (args : list log_arg) : M unit :=
  emit (ConsoleError args).

Definition trace {A} (m : M A) : list event := fst m.
Definition outcome {A} (m : M A) : completion A := snd m.

(** The outbound calls among the events of a trace. *)
Definition is_fetch (ev : event) : bool :=
  match ev with
  | Fetch _ _ => true
  | ConsoleError _ => false
  end.

Definition outbound_calls (t : list event) : list event := List.filter is_fetch t.

End Eff.

(** ** The server *)

Module Server.
Import JS Eff.

(** *** Process configuration *)

(** [process.env]: a finite map from variable names to strings. *)
Abbreviation env := (gmap string string).

(** [process.env.X || d] where [d] is a string. *)
Definition env_or (o : option string) (d : string) : string :=
  match o with
  | Some s => if string_truthy s then s else d
  | None => d
  end.

(** The value of [PORT]: the string of the environment or the number 3001. *)
Inductive port : Type :=
  | PortString (s : string)
  | PortNumber (z : Z).

(** The constants the module computes when it is loaded. *)
Record config : Type := Config {
  PORT : port;
  GOOGLE_API_KEY : option string
}.

(** [const PORT = process.env.PORT || 3001;]
    [const GOOGLE_API_KEY = process.env.GOOGLE_API_KEY;] *)
Definition startup (e : env) : config :=
  {| PORT := match e !! "PORT" with
             | Some s => if string_truthy s then PortString s else PortNumber 3001
             | None => PortNumber 3001
             end;
     GOOGLE_API_KEY := e !! "GOOGLE_API_KEY" |}.

(** *** The prompt builder *)

Definition dq : string := String "034"%char EmptyString.
Definition nl : string := String "010"%char EmptyString.
Definition quoted (s : string) : string := dq ++ s ++ dq.

Definition systemPrompt : string :=
  String.concat nl [
    "You are an AI Pharmacist for the pharmacy " ++ quoted "New Lucky Pharma" ++ " in India.";
    EmptyString;
    "Your goals:";
    "- If the user starts with a simple greeting (e.g., " ++ quoted "Hi" ++ ", "
      ++ quoted "Hello" ++ ", " ++ quoted "How are you?"
      ++ "), reply briefly with a friendly, single-sentence greeting and ask how you can help (e.g., "
      ++ quoted "Hello! How can I assist you with your health questions today?" ++ ").";
    "- For all other queries (i.e., medical questions, product questions), reply directly and immediately to the user's query. Do not add any extra conversational text.";
    "- Help customers understand medicines, their uses, and basic health questions.";
    "- IMPORTANT: Always answer medical/product queries in numbered points (1., 2., 3., etc.), with each point on a separate line.";
    "- Keep Answer short and clean, aiming for 5 to 10 lines maximum.";
    "- Keep each point short and clear.";
    "- Do not write long paragraphs; break information into separate numbered points.";
    "- You are NOT a doctor. Always end replies with: Please consult a doctor for serious advice.";
    EmptyString;
    "Example format for medical query:";
    "1. Medicine name and type";
    "2. How it is used";
    "3. When to take it";
    "4. Important warnings"
  ].

(** [function buildGeminiBody(query)] *)
Definition buildGeminiBody (query : json) : json :=
  JObj {[ "contents" :=
    JArr [
      JObj {[ "parts" :=
        JArr [
          JObj {[ "text" := JStr systemPrompt ]};
          JObj {[ "text" := query ]}
        ] ]}
    ] ]}.

(** *** Requests, responses, the upstream *)

(** The inbound request as the handler reads it: [req.body], [undefined]
    when no body was parsed. *)
Record request : Type := Request {
  req_body : option json
}.

(** The response object: its status code and the JSON body sent, if any. *)
Record response : Type := Response {
  statusCode : Z;
  sent : option json
}.

(** The response object the handler receives: status 200, nothing sent. *)
Definition res : response := Response 200 None.

(** [r.status(c)] *)
Definition status (r : response) (c : Z) : response :=
  Response c (sent r).

(** [r.json(b)]: [sent] records the value handed to [res.json]; what the
    caller receives is its serialisation, see [received]. *)
Definition json_ (r : response) (b : json) : response :=
  Response (statusCode r) (Some b).

(** What [JSON.stringify] makes of a number, read back by the caller: a
    number that is not finite is written [null], and the negative zero is
    written [0]. *)
Definition number_on_wire (f : spec_float) : json :=
  match f with
  | S754_zero _ => JNum (S754_zero false)
  | S754_infinity _ => JNull
  | S754_nan => JNull
  | S754_finite _ _ _ => JNum f
  end.

(** The value denoted by the text [JSON.stringify] makes of a value. *)
Fixpoint on_wire (v : json) : json :=
  match v with
  | JNum f => number_on_wire f
  | JArr l => JArr (map on_wire l)
  | JObj m => JObj (on_wire <$> m)
  | JNull => JNull
  | JBool b => JBool b
  | JStr s => JStr s
  end.

(** The body the caller receives: [res.json] serialises its argument. *)
Definition received (r : response) : option json :=
  match sent r with
  | Some b => Some (on_wire b)
  | None => None
  end.

(** The object literal [{ reply: v }]. *)
Definition reply_obj (v : json) : json := JObj {[ "reply" := v ]}.

(** What [apiResponse.json()] does: it rejects, it resolves, or it never
    settles (the body never ends; the source sets no timeout). *)
Inductive json_outcome : Type :=
  | JsonRejects (e : js_error)
  | JsonResolves (data : json)
  | JsonPending.

(** The response object of [fetch]. *)
Record api_response : Type := ApiResponse {
  api_status : Z;
  api_json : json_outcome
}.

(** [apiResponse.ok]: [status >= 200 && status < 300]. *)
Definition api_ok (r : api_response) : bool :=
  (200 <=? api_status r)%Z && (api_status r <? 300)%Z.

(** What [fetch] does: it rejects, it resolves, or it never settles (the
    upstream never answers; the source sets no timeout). *)
Inductive fetch_outcome : Type :=
  | FetchRejects (e : js_error)
  | FetchResolves (r : api_response)
  | FetchPending.

(** The outside world: what the upstream answers to a call. *)
Record world : Type := World {
  fetch : string -> fetch_init -> fetch_outcome
}.

(** [await fetch(url, init)] *)
Definition await_fetch (w : world) (url : string) (init : fetch_init) : M api_response :=
  emit (Fetch url init) ;;
  match fetch w url init with
  | FetchRejects e => throw e
  | FetchResolves r => ret r
  | FetchPending => never
  end.

(** [await apiResponse.json()] *)
Definition await_json (r : api_response) : M json :=
  match api_json r with
  | JsonRejects e => throw e
  | JsonResolves data => ret data
  | JsonPending => never
  end.

(** *** The canned replies *)

Definition phone : string := "📞".

Definition REPLY_INVALID : string := "Missing or invalid query.".

Definition REPLY_NOT_CONFIGURED : string :=
  "AI is not configured at the moment. Please call the pharmacy directly. " ++ phone
  ++ " Please consult a doctor for serious advice.".

Definition REPLY_BLOCKED : string :=
  "I cannot answer that question due to safety guidelines. Please consult a doctor directly. Please consult a doctor for serious advice.".

Definition REPLY_FALLBACK : string :=
  "Sorry, I'm not sure how to answer that safely. You can call or visit the store for help. Please consult a doctor for serious advice.".

Definition REPLY_NOT_RESPONDING : string :=
  "AI is currently not responding. Please call the pharmacy directly. " ++ phone
  ++ " Please consult a doctor for serious advice.".

(** *** The handler *)

(** The property paths read in the upstream body:
    [data?.promptFeedback?.blockReason] and
    [data?.candidates?.[0]?.content?.parts?.[0]?.text]. *)
Definition block_reason_path : list prop_key :=
  [Name "promptFeedback"; Name "blockReason"].

Definition text_path : list prop_key :=
  [Name "candidates"; Index 0; Name "content"; Name "parts"; Index 0; Name "text"].

(** The endpoint address, a template literal over the model name and the
    key. *)
Definition gemini_url (MODEL_NAME key : string) : string :=
  "https://generativelanguage.googleapis.com/v1/models/" ++ MODEL_NAME
  ++ ":generateContent?key=" ++ key.

(** The options of the outbound call. *)
Definition gemini_init (body : json) : fetch_init :=
  {| method := "POST";
     headers := [("Content-Type", "application/json")];
     body := JSON_stringify body |}.

(** [app.post('/api/ai', async (req, res) => { ... })].

    [cfg] holds the constants computed when the module was loaded, [penv]
    is [process.env] as it is when the request is handled, [w] is the
    outside world.  A test [!x] on an expression that may be [undefined]
    is written as a match: the [None] branch is the [undefined] case, the
    [Some] branch tests [truthy]. *)
Definition post_api_ai (cfg : config) (penv : env) (w : world) (req : request)
  : M response :=
  query ← lift (destructure (or_else (req_body req) (JObj ∅)) "query");
  match query with
  | None => ret (json_ (status res 400) (reply_obj (JStr REPLY_INVALID)))
  | Some q =>
    if negb (truthy q) || negb (typeof_string q) then
      ret (json_ (status res 400) (reply_obj (JStr REPLY_INVALID)))
    else
    match GOOGLE_API_KEY cfg with
    | None => ret (json_ (status res 500) (reply_obj (JStr REPLY_NOT_CONFIGURED)))
    | Some key =>
      if negb (string_truthy key) then
        ret (json_ (status res 500) (reply_obj (JStr REPLY_NOT_CONFIGURED)))
      else
      try_catch
        (let MODEL_NAME := env_or (penv !! "GOOGLE_MODEL") "gemini-2.5-flash" in
         let url := gemini_url MODEL_NAME key in
         let body := buildGeminiBody q in
         apiResponse ← await_fetch w url (gemini_init body);
         data ← await_json apiResponse;
         (if negb (api_ok apiResponse) then
            console_error [LogStr "Gemini API HTTP error:";
                           LogNum (api_status apiResponse); LogVal (Some data)]
          else ret tt) ;;
         if truthy_opt (opt_path (Some data) block_reason_path) then
           console_error [LogStr "Prompt blocked:";
                          LogVal (get_property data (Name "promptFeedback"))] ;;
           ret (json_ res (reply_obj (JStr REPLY_BLOCKED)))
         else
           let reply := or_else (opt_path (Some data) text_path) (JStr REPLY_FALLBACK) in
           ret (json_ res (reply_obj reply)))
        (fun err =>
           console_error [LogStr "Gemini API error:"; LogErr err] ;;
           ret (json_ (status res 500) (reply_obj (JStr REPLY_NOT_RESPONDING))))
    end
  end.

End Server.

Import JS Eff Server.

(** ** Observations and vocabulary of the contract *)

(** The [query] of a request: the property [query] of its body, [None]
    when the body is absent or has no such property. *)
Definition query_field (req : request) : option json :=
  match req_body req with
  | Some b => get_property b (Name "query")
  | None => None
  end.

(** A request is valid when its query is a non-empty string. *)
Definition valid_query (req : request) (q : string) : Prop :=
  query_field req = Some (JStr q) ∧ q ≠ EmptyString.

(** A request is invalid when it has no query (which covers an absent
    body), when its query is not a string, or when it is the empty
    string. *)
Definition invalid_query (req : request) : Prop :=
  query_field req = None
  ∨ (∃ v, query_field req = Some v ∧ typeof_string v = false)
  ∨ query_field req = Some (JStr EmptyString).

(** A credential is configured when the key is a non-empty string. *)
Definition configured (cfg : config) (key : string) : Prop :=
  GOOGLE_API_KEY cfg = Some key ∧ key ≠ EmptyString.

(** The safety-block field and the generated text of an upstream body. *)
Definition block_reason (data : json) : option json :=
  opt_path (Some data) block_reason_path.

Definition candidate_text (data : json) : option json :=
  opt_path (Some data) text_path.

(** The model name in force for a request. *)
Definition model_name (penv : env) : string :=
  env_or (penv !! "GOOGLE_MODEL") "gemini-2.5-flash".

(** What the upstream answers to the call the handler makes for query [q]
    with key [key]. *)
Definition upstream (penv : env) (w : world) (key q : string) : fetch_outcome :=
  fetch w (gemini_url (model_name penv) key) (gemini_init (buildGeminiBody (JStr q))).

(** The upstream delivered the parsed body [data] with HTTP status [st]. *)
Definition upstream_delivers (penv : env) (w : world) (key q : string)
    (st : Z) (data : json) : Prop :=
  upstream penv w key q = FetchResolves (ApiResponse st (JsonResolves data)).

(** The upstream call failed with error [e]: the transport raised it, or
    the body did not decode as JSON. *)
Definition upstream_fails (penv : env) (w : world) (key q : string)
    (e : js_error) : Prop :=
  upstream penv w key q = FetchRejects e
  ∨ ∃ st, upstream penv w key q = FetchResolves (ApiResponse st (JsonRejects e)).

(** The interpretation precedence in the words of the specification: a
    safety block first, then the generated text, then the fallback. *)
Definition interpret (data : json) : json :=
  if truthy_opt (block_reason data) then JStr REPLY_BLOCKED
  else match candidate_text data with
       | Some t => if truthy t then t else JStr REPLY_FALLBACK
       | None => JStr REPLY_FALLBACK
       end.

(** A response with the given status and the body [{ reply: v }]. *)
Definition replied (code : Z) (v : json) : response :=
  Response code (Some (reply_obj v)).

(** The status and the reply of a finished computation. *)
Definition status_of (m : M response) : option Z :=
  match outcome m with
  | Normal r => Some (statusCode r)
  | Throw _ => None
  | Pending => None
  end.

Definition reply_of (m : M response) : option json :=
  match outcome m with
  | Normal r => match sent r with
                | Some b => get_property b (Name "reply")
                | None => None
                end
  | Throw _ => None
  | Pending => None
  end.

(** The body the caller receives from a finished computation. *)
Definition received_of (m : M response) : option json :=
  match outcome m with
  | Normal r => received r
  | Throw _ => None
  | Pending => None
  end.

(** The upstream call never settles: the upstream never answers, or the
    body of its answer never ends. *)
Definition upstream_hangs (penv : env) (w : world) (key q : string) : Prop :=
  upstream penv w key q = FetchPending
  ∨ ∃ st, upstream penv w key q = FetchResolves (ApiResponse st JsonPending).

(** The five fixed reply texts of the handler. *)
Definition fixed_replies : list string :=
  [REPLY_INVALID; REPLY_NOT_CONFIGURED; REPLY_BLOCKED; REPLY_FALLBACK;
   REPLY_NOT_RESPONDING].

(** The events of the upstream phase, by what the upstream answered. *)
Definition call_event (penv : env) (key q : string) : event :=
  Fetch (gemini_url (model_name penv) key) (gemini_init (buildGeminiBody (JStr q))).

Definition http_error_log (st : Z) (data : json) : list event :=
  if negb (api_ok (ApiResponse st (JsonResolves data))) then
    [ConsoleError [LogStr "Gemini API HTTP error:"; LogNum st; LogVal (Some data)]]
  else [].

Definition blocked_log (data : json) : list event :=
  if truthy_opt (block_reason data) then
    [ConsoleError [LogStr "Prompt blocked:";
                   LogVal (get_property data (Name "promptFeedback"))]]
  else [].

(** ** Concrete requests, bodies and worlds *)

Module Ex.

(** A process environment with a credential, and the configuration
    computed from it at startup. *)
Definition env_with_key : env := {[ "GOOGLE_API_KEY" := "k" ]}.
Definition cfg : config := startup env_with_key.

(** The request [{ query: 'hello' }]. *)
Definition req_hello : request :=
  Request (Some (JObj {[ "query" := JStr "hello" ]})).

(** A request without a parsed body. *)
Definition req_no_body : request := Request None.

(** The upstream body [{ candidates: [ { content: { parts: [ { text: t } ] } } ] }]. *)
Definition candidates_with (t : json) : json :=
  JArr [ JObj {[ "content" := JObj {[ "parts" := JArr [ JObj {[ "text" := t ]} ] ]} ]} ].

Definition body_with_text (t : json) : json :=
  JObj {[ "candidates" := candidates_with t ]}.

(** The same body with a safety-block field [promptFeedback.blockReason]
    of value [b] beside the candidates. *)
Definition body_with_block (b t : json) : json :=
  JObj (<[ "promptFeedback" := JObj {[ "blockReason" := b ]} ]>
        {[ "candidates" := candidates_with t ]}).

(** An upstream body with no field at all. *)
Definition body_empty : json := JObj ∅.

Definition take_with_water : json := JStr "1. Take with water".

(** A world in which every call is answered with status [st] and the
    JSON body [data]. *)
Definition world_delivers (st : Z) (data : json) : world :=
  World (fun _ _ => FetchResolves (ApiResponse st (JsonResolves data))).

(** A world in which every call fails in transport with [e]. *)
Definition world_rejects (e : js_error) : world :=
  World (fun _ _ => FetchRejects e).

Definition econnreset : js_error :=
  JsError "FetchError" "request failed, reason: socket hang up".

(** The address of the default model with the key of [cfg]. *)
Definition default_url : string := gemini_url "gemini-2.5-flash" "k".

(** A world in which only the default model answers; a call to any other
    address fails in transport. *)
Definition world_default_model_only : world :=
  World (fun url _ =>
    if String.eqb url default_url
    then FetchResolves (ApiResponse 200 (JsonResolves (body_with_text take_with_water)))
    else FetchRejects econnreset).

(** A later process environment in which another model is named. *)
Definition env_other_model : env := <[ "GOOGLE_MODEL" := "gemini-pro" ]> env_with_key.

(** A later process environment in which the key and the port were
    changed and the model is not named. *)
Definition env_other_key : env :=
  <[ "PORT" := "8080" ]> (<[ "GOOGLE_API_KEY" := "other" ]> ∅).

End Ex.

(** ** The prompt builder in a store of objects *)

Module Store.

(** In JavaScript each object literal and each array literal creates an
    object in the store.  To state what the prompt builder does to the
    state of the program, it is written here a second time, over an
    explicit store: a list of cells, a location being an index in it. *)

Abbreviation loc := nat.

(** The values the builder handles: strings and references to objects. *)
Inductive value : Type :=
  | VStr (s : string)
  | VRef (l : loc).

(** An object, with its own properties in the order of their creation, or
    an array. *)
Inductive cell : Type :=
  | CObj (props : list (string * value))
  | CArr (elems : list value).

Abbreviation heap := (list cell).

(** A computation on the store. *)
Definition St (A : Type) : Type := heap -> A * heap.

#[global] Instance St_ret : MRet St := fun A a h => (a, h).
#[global] Instance St_bind : MBind St :=
  fun A B f m h => let '(a, h') := m h in f a h'.

(** A new object takes the next free location. *)
Definition new_cell (c : cell) : St loc :=
  fun h => (List.length h, (h ++ [c])%list).

(** [{] ... and [[] ...: the literal first creates an empty object, or an
    empty array. *)
Definition new_object : St loc := new_cell (CObj []).
Definition new_array : St loc := new_cell (CArr []).

(** The properties of an object with [k] set to [v]: in place when the
    object has the property, at the end when it has not. *)
Definition has_prop (k : string) (ps : list (string * value)) : bool :=
  existsb (fun kv => String.eqb k kv.1) ps.

Definition set_prop (k : string) (v : value) (ps : list (string * value))
  : list (string * value) :=
  if has_prop k ps
  then map (fun kv => if String.eqb k kv.1 then (k, v) else kv) ps
  else (ps ++ [(k, v)])%list.

(** [k: v] inside an object literal: the property is defined on the
    object being built. *)
Definition define_property (l : loc) (k : string) (v : value) : St unit :=
  fun h =>
    match h !! l with
    | Some (CObj ps) => (tt, <[ l := CObj (set_prop k v ps) ]> h)
    | _ => (tt, h)
    end.

(** An element inside an array literal: it is appended to the array being
    built. *)
Definition append_element (l : loc) (v : value) : St unit :=
  fun h =>
    match h !! l with
    | Some (CArr es) => (tt, <[ l := CArr (es ++ [v]) ]> h)
    | _ => (tt, h)
    end.

(** [function buildGeminiBody(query)], literal by literal, in the order
    in which JavaScript evaluates them.  The template literal has no
    substitution, so [systemPrompt] is the same constant string at every
    call. *)
Definition buildGeminiBody_store (query : value) : St loc :=
  payload ← new_object;
  contents ← new_array;
  content ← new_object;
  parts ← new_array;
  part1 ← new_object;
  define_property part1 "text" (VStr systemPrompt) ;;
  append_element parts (VRef part1) ;;
  part2 ← new_object;
  define_property part2 "text" query ;;
  append_element parts (VRef part2) ;;
  define_property content "parts" (VRef parts) ;;
  append_element contents (VRef content) ;;
  define_property payload "contents" (VRef contents) ;;
  mret payload.

(** The JSON value a value of the store stands for: what [JSON.stringify]
    walks through.  [None] when a reference dangles or the structure is
    deeper than [fuel]. *)
Fixpoint reify (fuel : nat) (h : heap) (v : value) : option json :=
  match v with
  | VStr s => Some (JStr s)
  | VRef l =>
      match fuel with
      | O => None
      | S n =>
          match h !! l with
          | Some (CObj ps) =>
              ms ← mapM (fun kv : string * value =>
                           x ← reify n h kv.2; Some (kv.1, x)) ps;
              Some (JObj (list_to_map ms))
          | Some (CArr es) =>
              xs ← mapM (reify n h) es;
              Some (JArr xs)
          | None => None
          end
      end
  end.

(** The cells the builder creates when the store holds [n] cells. *)
Definition payload_cells (n : nat) (query : value) : list cell :=
  [ CObj [("contents", VRef (n + 1))];
    CArr [VRef (n + 2)];
    CObj [("parts", VRef (n + 3))];
    CArr [VRef (n + 4); VRef (n + 5)];
    CObj [("text", VStr systemPrompt)];
    CObj [("text", query)] ].

End Store.

(** ** The request logger *)

Module Logger.

(** The first middleware of the file: it gives the request an identifier,
    sets it as a response header, logs the start of the request, and
    registers a callback that logs its end when the response has been
    sent. *)

(** [req.socket] and [req.connection], as far as the logger reads them. *)
Record socket : Type := Socket {
  remoteAddress : option string
}.

(** The inbound request as the logger reads it.  [req_headers] is
    [req.headers], whose names Node delivers in lower case; [req_parsed]
    is what the route handler reads of the same request. *)
Record http_request : Type := HttpRequest {
  req_headers : gmap string string;
  req_ip : option string;
  req_socket : option socket;
  req_connection : option socket;
  req_method : string;
  req_originalUrl : option string;
  req_url : string;
  req_parsed : request
}.

(** What the calls to [randomUUID], [Date.now] and [new Date] return while
    one request is served, each named after its place in the source, and
    whether the response emits [finish]: it does when the response has
    been handed over for transmission, and does not when the connection
    of the client is gone before. *)
Record readings : Type := Readings {
  uuid : string;
  now_start : Z;
  date_incoming : Z;
  now_finish : Z;
  date_out : Z;
  finish_fires : bool
}.

(** The text [toISOString] makes of a date, kept symbolic; the date is
    given in milliseconds. *)
Inductive iso_string : Type :=
  | toISOString (ms : Z).

(** The two objects the logger prints.  The field [event] of the source
    is the constructor. *)
Inductive log_line : Type :=
  | request_start (ts : iso_string) (id method url remote userAgent : string)
  | request_end (ts : iso_string) (id method url : string) (status duration_ms : Z).

(** The events of serving a request: the lines printed with
    [console.log(JSON.stringify(...))] and the events of the handler. *)
Inductive server_event : Type :=
  | ConsoleLog (l : log_line)
  | HandlerEvent (ev : event).

(** What serving a request comes to: the headers this file has set on
    the response, and how the chain ended. *)
Record served : Type := Served {
  srv_headers : gmap string string;
  srv_outcome : completion response
}.

(** [a || b] on strings that may be [undefined]. *)
Definition or_undef (a b : option string) : option string :=
  match a with
  | Some s => if string_truthy s then a else b
  | None => b
  end.

(** [s?.remoteAddress] *)
Definition remote_of (s : option socket) : option string :=
  match s with
  | Some x => remoteAddress x
  | None => None
  end.

(** [req.get(name)]: the header read by its lower-case name. *)
Definition req_get (req : http_request) (lower_name : string) : option string :=
  req_headers req !! lower_name.

(** [const id = req.headers['x-request-id'] || randomUUID();] *)
Definition request_id (rd : readings) (req : http_request) : string :=
  env_or (req_headers req !! "x-request-id") (uuid rd).

(** [req.ip || req.socket?.remoteAddress || req.connection?.remoteAddress || ''] *)
Definition remote (req : http_request) : string :=
  env_or (or_undef (or_undef (req_ip req) (remote_of (req_socket req)))
                   (remote_of (req_connection req)))
         EmptyString.

(** The object [incoming]. *)
Definition incoming (rd : readings) (req : http_request) (id : string) : log_line :=
  request_start (toISOString (date_incoming rd)) id (req_method req)
    (env_or (req_originalUrl req) (req_url req))
    (remote req)
    (env_or (req_get req "user-agent") EmptyString).

(** The callback given to [res.once('finish', ...)]: the object [out],
    built from the identifier and the start time the callback closes
    over and from the status code of the response. *)
Definition on_finish (rd : readings) (req : http_request) (id : string) (start : Z)
    (r : response) : log_line :=
  let duration := (now_finish rd - start)%Z in
  request_end (toISOString (date_out rd)) id (req_method req)
    (env_or (req_originalUrl req) (req_url req))
    (statusCode r) duration.

(** The middleware.  [next] is the rest of the chain, run by [next()].
    The header is set, and the start line printed, before [next()] is
    called, whatever the chain then does.  The [finish] callback prints
    the end line when the chain has sent a response and the response
    emits [finish].  When the chain throws or stays pending, the trace
    stops there: what Express then does with the request is not code of
    this file.  The assignment [req.id = id] is read by nothing in the
    file and is left out. *)
Definition request_logger (rd : readings) (req : http_request) (next : M response)
  : list server_event * served :=
  let id := request_id rd req in
  let hs : gmap string string := <[ "X-Request-Id" := id ]> ∅ in
  let start := now_start rd in
  let first := ConsoleLog (incoming rd req id) in
  match next with
  | (t, Normal r) =>
      let finish := match sent r with
                    | Some _ =>
                        if finish_fires rd
                        then [ConsoleLog (on_finish rd req id start r)]
                        else []
                    | None => []
                    end in
      ((first :: map HandlerEvent t ++ finish)%list, Served hs (Normal r))
  | (t, Throw e) => ((first :: map HandlerEvent t)%list, Served hs (Throw e))
  | (t, Pending) => ((first :: map HandlerEvent t)%list, Served hs Pending)
  end.


(** The identifier a log line carries. *)
Definition log_id (l : log_line) : string :=
  match l with
  | request_start _ id _ _ _ _ => id
  | request_end _ id _ _ _ _ => id
  end.

(** The printed lines and the handler events of a trace, each in order. *)
Definition log_lines (t : list server_event) : list log_line :=
  omap (fun ev => match ev with ConsoleLog l => Some l | HandlerEvent _ => None end) t.

Definition handler_events (t : list server_event) : list event :=
  omap (fun ev => match ev with HandlerEvent e => Some e | ConsoleLog _ => None end) t.

(** The value of the response header [X-Request-Id]. *)
Definition response_id (m : list server_event * served) : option string :=
  srv_headers (snd m) !! "X-Request-Id".

End Logger.

Import Logger.

(** ** Further concrete inputs *)

Module ExLog.

Definition rd : readings :=
  {| uuid := "3f2b8c1e-5d4a-4c6b-9e7f-0a1b2c3d4e5f";
     now_start := 1000; date_incoming := 1001;
     now_finish := 1250; date_out := 1251;
     finish_fires := true |}.

(** The same readings for a client that is gone before the response is
    flushed. *)
Definition rd_client_gone : readings :=
  {| uuid := uuid rd;
     now_start := now_start rd; date_incoming := date_incoming rd;
     now_finish := now_finish rd; date_out := date_out rd;
     finish_fires := false |}.

(** A world in which the upstream never answers. *)
Definition world_hangs : world := World (fun _ _ => FetchPending).

(** A POST to /api/ai with the header x-request-id of value [h], when
    given, and the body [{ query: 'hello' }]. *)
Definition req_with_id (h : option string) : http_request :=
  {| req_headers := match h with
                    | Some v => {[ "x-request-id" := v ]}
                    | None => ∅
                    end;
     req_ip := Some "127.0.0.1";
     req_socket := None;
     req_connection := None;
     req_method := "POST";
     req_originalUrl := Some "/api/ai";
     req_url := "/api/ai";
     req_parsed := Ex.req_hello |}.

(** A configuration whose key is the empty string. *)
Definition cfg_empty_key : config := startup {[ "GOOGLE_API_KEY" := EmptyString ]}.

(** A process environment in which the model name is the empty string. *)
Definition env_empty_model : env := {[ "GOOGLE_MODEL" := EmptyString ]}.

End ExLog.

(** ** Stage lemmas: one per path through the handler *)

Section Stages.

Variables (cfg : config) (penv : env) (w : world) (req : request).

(** Reading the query never throws: a missing or falsy body is replaced
    by the empty object before it is destructured. *)
Lemma destructure_query :
  destructure (or_else (req_body req) (JObj ∅)) "query" = inr (query_field req).
Proof.
  unfold query_field. destruct (req_body req) as [b|]; [|reflexivity].
  destruct b as [|[]|f|s|l|m]; try reflexivity.
  - destruct f; reflexivity.
  - destruct s; reflexivity.
Qed.

Lemma invalid_not_valid : invalid_query req → ∀ q, ¬ valid_query req q.
Proof.
  intros [H|[(v & H & Hv)|H]] q [Hq Hne]; rewrite H in Hq.
  - discriminate.
  - injection Hq as ->. discriminate.
  - injection Hq as <-. by apply Hne.
Qed.

Lemma not_valid_invalid : (∀ q, ¬ valid_query req q) → invalid_query req.
Proof.
  intros H. unfold invalid_query.
  destruct (query_field req) as [v|] eqn:E; [|by left].
  destruct v as [|b|f|s|l|m]; try (right; left; eexists; split; [reflexivity|reflexivity]).
  destruct s as [|c s]; [by right; right|].
  exfalso. apply (H (String c s)). by split.
Qed.

Lemma string_truthy_ne (s : string) : s ≠ EmptyString → string_truthy s = true.
Proof. destruct s; [congruence|reflexivity]. Qed.

(** The invalid-input path. *)
Lemma stage_invalid :
  invalid_query req →
  post_api_ai cfg penv w req = ([], Normal (replied 400 (JStr REPLY_INVALID))).
Proof.
  intros H. unfold post_api_ai. rewrite destructure_query.
  destruct H as [H|[(v & H & Hv)|H]]; rewrite H; cbn [lift mbind M_bind bind ret].
  - reflexivity.
  - destruct v; try discriminate; cbn [typeof_string negb]; rewrite orb_true_r; reflexivity.
  - reflexivity.
Qed.

(** Unfolds the handler on a valid request down to the credential test. *)
Ltac enter_handler Hq :=
  let Hq1 := fresh "Hq" in
  let Hne := fresh "Hne" in
  destruct Hq as [Hq1 Hne];
  unfold post_api_ai; rewrite destructure_query, Hq1;
  cbn [lift mbind M_bind bind ret truthy typeof_string];
  rewrite (string_truthy_ne _ Hne);
  cbn [negb orb].

(** Unfolds the handler on a valid request with a credential down to the
    upstream call. *)
Ltac enter_try Hq Hk :=
  let Hk1 := fresh "Hk" in
  let Hkne := fresh "Hkne" in
  enter_handler Hq;
  destruct Hk as [Hk1 Hkne];
  rewrite Hk1, (string_truthy_ne _ Hkne);
  cbn [negb];
  fold (model_name penv).

(** The not-configured path: the key is undefined or empty. *)
Lemma stage_not_configured (q : string) :
  valid_query req q →
  (∀ key, ¬ configured cfg key) →
  post_api_ai cfg penv w req = ([], Normal (replied 500 (JStr REPLY_NOT_CONFIGURED))).
Proof.
  intros Hq Hk. enter_handler Hq.
  destruct (GOOGLE_API_KEY cfg) as [key|] eqn:E; [|reflexivity].
  destruct key as [|c key]; [reflexivity|].
  exfalso. apply (Hk (String c key)). by split.
Qed.

(** The transport-error path. *)
Lemma stage_fetch_rejects (q key : string) (e : js_error) :
  valid_query req q → configured cfg key →
  upstream penv w key q = FetchRejects e →
  post_api_ai cfg penv w req =
    ([call_event penv key q; ConsoleError [LogStr "Gemini API error:"; LogErr e]],
     Normal (replied 500 (JStr REPLY_NOT_RESPONDING))).
Proof.
  intros Hq Hk Hu. enter_try Hq Hk.
  unfold await_fetch. unfold upstream in Hu. rewrite Hu. reflexivity.
Qed.

(** The decode-error path. *)
Lemma stage_json_rejects (q key : string) (st : Z) (e : js_error) :
  valid_query req q → configured cfg key →
  upstream penv w key q = FetchResolves (ApiResponse st (JsonRejects e)) →
  post_api_ai cfg penv w req =
    ([call_event penv key q; ConsoleError [LogStr "Gemini API error:"; LogErr e]],
     Normal (replied 500 (JStr REPLY_NOT_RESPONDING))).
Proof.
  intros Hq Hk Hu. enter_try Hq Hk.
  unfold await_fetch. unfold upstream in Hu. rewrite Hu. reflexivity.
Qed.

(** The path on which the upstream delivered a JSON body. *)
Lemma stage_delivers (q key : string) (st : Z) (data : json) :
  valid_query req q → configured cfg key →
  upstream_delivers penv w key q st data →
  post_api_ai cfg penv w req =
    ((call_event penv key q :: http_error_log st data ++ blocked_log data)%list,
     Normal (replied 200 (interpret data))).
Proof.
  intros Hq Hk Hu. enter_try Hq Hk.
  unfold await_fetch. unfold upstream_delivers, upstream in Hu. rewrite Hu.
  cbn [mbind M_bind bind ret emit await_json api_json api_status app].
  unfold interpret, blocked_log, http_error_log, block_reason, candidate_text.
  destruct (negb (api_ok _));
    destruct (truthy_opt (opt_path (Some data) block_reason_path));
    try reflexivity;
    (destruct (opt_path (Some data) text_path) as [t|]; [|reflexivity]);
    unfold or_else; destruct (truthy t); reflexivity.
Qed.

(** The path on which the upstream call never settles. *)
Lemma stage_hangs (q key : string) :
  valid_query req q → configured cfg key →
  upstream_hangs penv w key q →
  post_api_ai cfg penv w req = ([call_event penv key q], Pending).
Proof.
  intros Hq Hk Hu. enter_try Hq Hk.
  unfold await_fetch. unfold upstream_hangs, upstream in Hu.
  destruct Hu as [Hu|[st Hu]]; rewrite Hu; reflexivity.
Qed.

End Stages.

(** ** General facts about the handler *)

Lemma reply_obj_inj (a b : json) : reply_obj a = reply_obj b → a = b.
Proof.
  intros H.
  assert (E : get_property (reply_obj a) (Name "reply")
              = get_property (reply_obj b) (Name "reply")) by (by rewrite H).
  unfold reply_obj, get_property in E. rewrite !lookup_singleton_eq in E.
  by injection E.
Qed.

Lemma replied_inj (c c' : Z) (a b : json) :
  replied c a = replied c' b → c = c' ∧ a = b.
Proof.
  intros H. split.
  - exact (f_equal statusCode H).
  - apply reply_obj_inj.
    exact (f_equal (fun r => default JNull (sent r)) H).
Qed.

(** The interpreted reply is never a falsy value, so never the empty
    string. *)
Lemma interpret_truthy (data : json) : truthy (interpret data) = true.
Proof.
  unfold interpret. destruct (truthy_opt (block_reason data)); [reflexivity|].
  destruct (candidate_text data) as [t|]; [|reflexivity].
  destruct (truthy t) eqn:E; [exact E | reflexivity].
Qed.

Lemma interpret_blocked (data b : json) :
  block_reason data = Some b → truthy b = true →
  interpret data = JStr REPLY_BLOCKED.
Proof. intros Hb Ht. unfold interpret. rewrite Hb. cbn [truthy_opt]. by rewrite Ht. Qed.

Lemma interpret_text (data t : json) :
  truthy_opt (block_reason data) = false →
  candidate_text data = Some t → truthy t = true →
  interpret data = t.
Proof. intros Hb Hc Ht. unfold interpret. by rewrite Hb, Hc, Ht. Qed.

Lemma interpret_falsy_text (data t : json) :
  truthy_opt (block_reason data) = false →
  candidate_text data = Some t → truthy t = false →
  interpret data = JStr REPLY_FALLBACK.
Proof. intros Hb Hc Ht. unfold interpret. by rewrite Hb, Hc, Ht. Qed.

Lemma interpret_no_text (data : json) :
  truthy_opt (block_reason data) = false →
  candidate_text data = None →
  interpret data = JStr REPLY_FALLBACK.
Proof. intros Hb Hc. unfold interpret. by rewrite Hb, Hc. Qed.

Lemma valid_or_invalid (req : request) :
  invalid_query req ∨ ∃ q, valid_query req q.
Proof.
  unfold invalid_query, valid_query.
  destruct (query_field req) as [v|]; [|by left; left].
  destruct v as [|b|f|s|l|m];
    try (left; right; left; eexists; split; reflexivity).
  destruct s as [|c s]; [by left; right; right|].
  right. by exists (String c s).
Qed.

Lemma configured_or_not (cfg : config) :
  (∃ key, configured cfg key) ∨ (∀ key, ¬ configured cfg key).
Proof.
  unfold configured. destruct (GOOGLE_API_KEY cfg) as [[|c k]|].
  - right. intros key [H Hne]. injection H as <-. by apply Hne.
  - left. by exists (String c k).
  - right. intros key [H _]. discriminate.
Qed.

(** The five paths of the handler, each with its condition and its full
    result. *)
Lemma post_api_ai_cases (cfg : config) (penv : env) (w : world) (req : request) :
  (invalid_query req
   ∧ post_api_ai cfg penv w req = ([], Normal (replied 400 (JStr REPLY_INVALID))))
  ∨ (∃ q, valid_query req q ∧ (∀ key, ¬ configured cfg key)
     ∧ post_api_ai cfg penv w req
       = ([], Normal (replied 500 (JStr REPLY_NOT_CONFIGURED))))
  ∨ (∃ q key e, valid_query req q ∧ configured cfg key ∧ upstream_fails penv w key q e
     ∧ post_api_ai cfg penv w req
       = ([call_event penv key q; ConsoleError [LogStr "Gemini API error:"; LogErr e]],
          Normal (replied 500 (JStr REPLY_NOT_RESPONDING))))
  ∨ (∃ q key st data, valid_query req q ∧ configured cfg key
     ∧ upstream_delivers penv w key q st data
     ∧ post_api_ai cfg penv w req
       = ((call_event penv key q :: http_error_log st data ++ blocked_log data)%list,
          Normal (replied 200 (interpret data))))
  ∨ (∃ q key, valid_query req q ∧ configured cfg key ∧ upstream_hangs penv w key q
     ∧ post_api_ai cfg penv w req = ([call_event penv key q], Pending)).
Proof.
  destruct (valid_or_invalid req) as [Hi|[q Hq]].
  { left. split; [done | by apply stage_invalid]. }
  destruct (configured_or_not cfg) as [[key Hk]|Hk].
  2: { right; left. exists q. split_and!; [done | done | by apply (stage_not_configured _ _ _ _ q)]. }
  destruct (upstream penv w key q) as [e|[st [e|data|]]|] eqn:Hu.
  - right; right; left. exists q, key, e. split_and!; [done | done | by left |].
    by apply stage_fetch_rejects.
  - right; right; left. exists q, key, e. split_and!; [done | done | right; by exists st |].
    by apply (stage_json_rejects _ _ _ _ q key st).
  - right; right; right; left. exists q, key, st, data. split_and!; [done | done | done |].
    by apply stage_delivers.
  - right; right; right; right. exists q, key.
    assert (upstream_hangs penv w key q) by (right; by exists st).
    split_and!; [done | done | done | by apply stage_hangs].
  - right; right; right; right. exists q, key.
    assert (upstream_hangs penv w key q) by (by left).
    split_and!; [done | done | done | by apply stage_hangs].
Qed.

(** The response of the handler, when it gives one, is one of four. *)
Lemma post_api_ai_outcome (cfg : config) (penv : env) (w : world) (req : request)
    (resp : response) :
  outcome (post_api_ai cfg penv w req) = Normal resp →
  resp = replied 400 (JStr REPLY_INVALID)
  ∨ resp = replied 500 (JStr REPLY_NOT_CONFIGURED)
  ∨ resp = replied 500 (JStr REPLY_NOT_RESPONDING)
  ∨ ∃ data, resp = replied 200 (interpret data).
Proof.
  intros H.
  destruct (post_api_ai_cases cfg penv w req)
    as [[_ E]|[(q & _ & _ & E)|[(q & key & e & _ & _ & _ & E)
       |[(q & key & st & data & _ & _ & _ & E)|(q & key & _ & _ & _ & E)]]]];
    rewrite E in H; cbn [outcome snd] in H; try discriminate H;
    injection H as <-.
  - by left.
  - by right; left.
  - by right; right; left.
  - right; right; right. by exists data.
Qed.

Lemma on_wire_reply_obj (v : json) : on_wire (reply_obj v) = reply_obj (on_wire v).
Proof. unfold reply_obj. cbn [on_wire]. by rewrite map_fmap_singleton. Qed.

Lemma outcome_reply (m : M response) (c : Z) (v : json) :
  outcome m = Normal (replied c v) → reply_of m = Some v.
Proof.
  intros H. unfold reply_of. rewrite H. cbn [replied sent reply_obj get_property].
  apply lookup_singleton_eq.
Qed.

Lemma api_ok_false (st : Z) (data : json) :
  ¬ (200 ≤ st ≤ 299)%Z → api_ok (ApiResponse st (JsonResolves data)) = false.
Proof.
  intros H. unfold api_ok. cbn [api_status].
  apply andb_false_iff. rewrite Z.leb_gt, Z.ltb_ge. lia.
Qed.

(** ** The interpretation of the upstream body *)

(** C1 (as amended).  When the upstream body has no safety-block field and
    the value at candidates[0].content.parts[0].text is a non-empty
    string, the handler responds with status 200 and a body whose reply is
    that string, unchanged; the caller receives it as it is. *)
Theorem nonempty_text_replied_verbatim
    (cfg : config) (penv : env) (w : world) (req : request)
    (q key : string) (st : Z) (data : json) (s : string) :
  valid_query req q → configured cfg key →
  upstream_delivers penv w key q st data →
  block_reason data = None →
  candidate_text data = Some (JStr s) →
  s ≠ EmptyString →
  outcome (post_api_ai cfg penv w req) = Normal (replied 200 (JStr s))
  ∧ received_of (post_api_ai cfg penv w req) = Some (JObj {[ "reply" := JStr s ]}).
Proof.
  intros Hq Hk Hu Hb Ht Hne.
  assert (E : interpret data = JStr s).
  { apply interpret_text; [by rewrite Hb | done | by apply string_truthy_ne]. }
  unfold received_of.
  rewrite (stage_delivers cfg penv w req q key st data Hq Hk Hu), E.
  cbn [outcome snd]. split; [reflexivity|].
  unfold received, replied. cbn [sent]. by rewrite on_wire_reply_obj.
Qed.

Lemma nonempty_text_replied_verbatim_witness :
  outcome (post_api_ai Ex.cfg ∅ (Ex.world_delivers 200 (Ex.body_with_text Ex.take_with_water))
             Ex.req_hello)
  = Normal (replied 200 (JStr "1. Take with water"))
  ∧ received_of (post_api_ai Ex.cfg ∅
                   (Ex.world_delivers 200 (Ex.body_with_text Ex.take_with_water))
                   Ex.req_hello)
    = Some (JObj {[ "reply" := JStr "1. Take with water" ]}).
Proof.
  apply (nonempty_text_replied_verbatim Ex.cfg ∅ _ Ex.req_hello "hello" "k" 200
           (Ex.body_with_text Ex.take_with_water) "1. Take with water").
  - split; [reflexivity | discriminate].
  - split; [reflexivity | discriminate].
  - reflexivity.
  - reflexivity.
  - reflexivity.
  - discriminate.
Defined.

(** C1 as stated fails: a text that is present but is the empty string is
    not returned; the reply is the fallback text. *)
Lemma empty_text_not_replied :
  valid_query Ex.req_hello "hello" ∧ configured Ex.cfg "k" ∧
  upstream_delivers ∅ (Ex.world_delivers 200 (Ex.body_with_text (JStr EmptyString)))
    "k" "hello" 200 (Ex.body_with_text (JStr EmptyString)) ∧
  block_reason (Ex.body_with_text (JStr EmptyString)) = None ∧
  candidate_text (Ex.body_with_text (JStr EmptyString)) = Some (JStr EmptyString) ∧
  outcome (post_api_ai Ex.cfg ∅ (Ex.world_delivers 200 (Ex.body_with_text (JStr EmptyString)))
             Ex.req_hello)
  ≠ Normal (replied 200 (JStr EmptyString)).
Proof.
  repeat split;
    first [ reflexivity
          | intros H; apply outcome_reply in H; vm_compute in H; discriminate H
          | discriminate ].
Qed.

(** C2 (as amended).  When the safety-block field promptFeedback.blockReason
    of the upstream body is present and truthy (for a string: not empty),
    the handler responds with status 200 and the fixed safety-refusal text,
    whatever candidate text the same body holds. *)
Theorem truthy_block_reason_refused
    (cfg : config) (penv : env) (w : world) (req : request)
    (q key : string) (st : Z) (data b : json) :
  valid_query req q → configured cfg key →
  upstream_delivers penv w key q st data →
  block_reason data = Some b →
  truthy b = true →
  outcome (post_api_ai cfg penv w req) = Normal (replied 200 (JStr REPLY_BLOCKED)).
Proof.
  intros Hq Hk Hu Hb Htr.
  rewrite (stage_delivers cfg penv w req q key st data Hq Hk Hu).
  cbn [outcome snd]. f_equal. f_equal.
  by apply (interpret_blocked data b).
Qed.

Lemma truthy_block_reason_refused_witness :
  candidate_text (Ex.body_with_block (JStr "SAFETY") Ex.take_with_water)
    = Some Ex.take_with_water ∧
  outcome (post_api_ai Ex.cfg ∅
             (Ex.world_delivers 200 (Ex.body_with_block (JStr "SAFETY") Ex.take_with_water))
             Ex.req_hello)
  = Normal (replied 200 (JStr REPLY_BLOCKED)).
Proof.
  split; [reflexivity|].
  apply (truthy_block_reason_refused Ex.cfg ∅ _ Ex.req_hello "hello" "k" 200
           (Ex.body_with_block (JStr "SAFETY") Ex.take_with_water) (JStr "SAFETY")).
  - split; [reflexivity | discriminate].
  - split; [reflexivity | discriminate].
  - reflexivity.
  - reflexivity.
  - reflexivity.
Defined.

(** C2 as stated fails: a safety-block field that is present but falsy
    (here the empty string) does not block; the candidate text of the
    same body is returned. *)
Lemma empty_block_reason_not_refused :
  valid_query Ex.req_hello "hello" ∧ configured Ex.cfg "k" ∧
  upstream_delivers ∅
    (Ex.world_delivers 200 (Ex.body_with_block (JStr EmptyString) Ex.take_with_water))
    "k" "hello" 200 (Ex.body_with_block (JStr EmptyString) Ex.take_with_water) ∧
  block_reason (Ex.body_with_block (JStr EmptyString) Ex.take_with_water)
    = Some (JStr EmptyString) ∧
  outcome (post_api_ai Ex.cfg ∅
             (Ex.world_delivers 200 (Ex.body_with_block (JStr EmptyString) Ex.take_with_water))
             Ex.req_hello)
  ≠ Normal (replied 200 (JStr REPLY_BLOCKED)) ∧
  reply_of (post_api_ai Ex.cfg ∅
             (Ex.world_delivers 200 (Ex.body_with_block (JStr EmptyString) Ex.take_with_water))
             Ex.req_hello)
  = Some Ex.take_with_water.
Proof.
  repeat split;
    first [ reflexivity
          | intros H; apply outcome_reply in H; vm_compute in H; discriminate H
          | discriminate ].
Qed.

(** C3.  When the upstream body has no safety-block field and no text at
    candidates[0].content.parts[0].text (for instance no candidates field
    at all), the handler responds with status 200 and the fixed fallback
    text. *)
Theorem no_text_gets_fallback
    (cfg : config) (penv : env) (w : world) (req : request)
    (q key : string) (st : Z) (data : json) :
  valid_query req q → configured cfg key →
  upstream_delivers penv w key q st data →
  block_reason data = None →
  candidate_text data = None →
  outcome (post_api_ai cfg penv w req) = Normal (replied 200 (JStr REPLY_FALLBACK)).
Proof.
  intros Hq Hk Hu Hb Ht.
  rewrite (stage_delivers cfg penv w req q key st data Hq Hk Hu).
  cbn [outcome snd]. f_equal. f_equal.
  apply interpret_no_text; [by rewrite Hb | done].
Qed.

Lemma no_text_gets_fallback_witness :
  get_property Ex.body_empty (Name "candidates") = None ∧
  outcome (post_api_ai Ex.cfg ∅ (Ex.world_delivers 200 Ex.body_empty) Ex.req_hello)
  = Normal (replied 200 (JStr REPLY_FALLBACK)).
Proof.
  split; [reflexivity|].
  apply (no_text_gets_fallback Ex.cfg ∅ _ Ex.req_hello "hello" "k" 200 Ex.body_empty).
  - split; [reflexivity | discriminate].
  - split; [reflexivity | discriminate].
  - reflexivity.
  - reflexivity.
  - reflexivity.
Defined.

(** ** Rejections before the upstream call *)

(** C4.  A request with no query, with a query that is not a string, or
    with the empty string as query (a request without a parsed body
    included) gets exactly status 400 with the body
    { reply: 'Missing or invalid query.' }; the handler ends normally (it
    does not throw) and makes no outbound call. *)
Theorem invalid_query_rejected
    (cfg : config) (penv : env) (w : world) (req : request) :
  invalid_query req →
  outcome (post_api_ai cfg penv w req)
    = Normal (Response 400 (Some (JObj {[ "reply" := JStr "Missing or invalid query." ]})))
  ∧ outbound_calls (trace (post_api_ai cfg penv w req)) = [].
Proof.
  intros H. rewrite (stage_invalid cfg penv w req H). by split.
Qed.

Lemma invalid_query_rejected_witness :
  outcome (post_api_ai Ex.cfg ∅ (Ex.world_delivers 200 Ex.body_empty) Ex.req_no_body)
    = Normal (Response 400 (Some (JObj {[ "reply" := JStr "Missing or invalid query." ]})))
  ∧ outbound_calls
      (trace (post_api_ai Ex.cfg ∅ (Ex.world_delivers 200 Ex.body_empty) Ex.req_no_body)) = [].
Proof.
  apply (invalid_query_rejected Ex.cfg ∅ _ Ex.req_no_body).
  left. reflexivity.
Defined.

(** C5.  When the process environment read at startup holds no API key,
    every request with a valid query gets status 500 with the fixed
    not-configured text, whatever the query says, and no outbound call is
    made. *)
Theorem missing_key_not_configured
    (env0 penv : env) (w : world) (req : request) (q : string) :
  env0 !! "GOOGLE_API_KEY" = None →
  valid_query req q →
  outcome (post_api_ai (startup env0) penv w req)
    = Normal (replied 500 (JStr REPLY_NOT_CONFIGURED))
  ∧ outbound_calls (trace (post_api_ai (startup env0) penv w req)) = [].
Proof.
  intros He Hq.
  rewrite (stage_not_configured (startup env0) penv w req q Hq).
  - by split.
  - intros key [Hk _]. cbn [startup GOOGLE_API_KEY] in Hk. congruence.
Qed.

Lemma missing_key_not_configured_witness :
  outcome (post_api_ai (startup ∅) Ex.env_with_key
             (Ex.world_delivers 200 (Ex.body_with_text Ex.take_with_water)) Ex.req_hello)
    = Normal (replied 500 (JStr REPLY_NOT_CONFIGURED))
  ∧ outbound_calls
      (trace (post_api_ai (startup ∅) Ex.env_with_key
                (Ex.world_delivers 200 (Ex.body_with_text Ex.take_with_water)) Ex.req_hello))
    = [].
Proof.
  apply (missing_key_not_configured ∅ Ex.env_with_key _ Ex.req_hello "hello").
  - reflexivity.
  - split; [reflexivity | discriminate].
Defined.

(** ** Upstream failures *)

(** C6.  When the outbound call raises a transport error, or the response
    body fails to decode as JSON, the response is status 500 with exactly
    the fixed not-responding text.  The error value does not reach the
    response: any two failures, whatever their errors, get the same
    response. *)
Theorem upstream_failure_is_opaque
    (cfg : config) (penv : env) (w : world) (req : request)
    (q key : string) (e : js_error) :
  valid_query req q → configured cfg key →
  upstream_fails penv w key q e →
  outcome (post_api_ai cfg penv w req)
    = Normal (replied 500 (JStr REPLY_NOT_RESPONDING))
  ∧ ∀ (w' : world) (e' : js_error),
      upstream_fails penv w' key q e' →
      outcome (post_api_ai cfg penv w' req) = outcome (post_api_ai cfg penv w req).
Proof.
  intros Hq Hk Hu.
  assert (A : ∀ w0 e0, upstream_fails penv w0 key q e0 →
              outcome (post_api_ai cfg penv w0 req)
              = Normal (replied 500 (JStr REPLY_NOT_RESPONDING))).
  { intros w0 e0 [H|[st H]].
    - by rewrite (stage_fetch_rejects cfg penv w0 req q key e0 Hq Hk H).
    - by rewrite (stage_json_rejects cfg penv w0 req q key st e0 Hq Hk H). }
  split; [by apply (A w e)|].
  intros w' e' Hu'. by rewrite (A w e Hu), (A w' e' Hu').
Qed.

Lemma upstream_failure_is_opaque_witness :
  outcome (post_api_ai Ex.cfg ∅ (Ex.world_rejects Ex.econnreset) Ex.req_hello)
    = Normal (replied 500 (JStr REPLY_NOT_RESPONDING))
  ∧ ∀ (w' : world) (e' : js_error),
      upstream_fails ∅ w' "k" "hello" e' →
      outcome (post_api_ai Ex.cfg ∅ w' Ex.req_hello)
      = outcome (post_api_ai Ex.cfg ∅ (Ex.world_rejects Ex.econnreset) Ex.req_hello).
Proof.
  apply (upstream_failure_is_opaque Ex.cfg ∅ _ Ex.req_hello "hello" "k" Ex.econnreset).
  - split; [reflexivity | discriminate].
  - split; [reflexivity | discriminate].
  - left. reflexivity.
Defined.

(** C7.  When the upstream answers with a status outside 200..299 and a
    body that parses as JSON, the handler does not take the 500 path: it
    responds with status 200 and the reply given by the interpretation
    precedence (safety block, then text, then fallback), which is the
    response it gives when the same body comes with a 2xx status. *)
Theorem non_2xx_json_is_interpreted
    (cfg : config) (penv : env) (w : world) (req : request)
    (q key : string) (st : Z) (data : json) :
  valid_query req q → configured cfg key →
  upstream_delivers penv w key q st data →
  ¬ (200 ≤ st ≤ 299)%Z →
  outcome (post_api_ai cfg penv w req) = Normal (replied 200 (interpret data))
  ∧ trace (post_api_ai cfg penv w req)
    = (call_event penv key q
       :: ConsoleError [LogStr "Gemini API HTTP error:"; LogNum st; LogVal (Some data)]
       :: blocked_log data)%list
  ∧ ∀ (w' : world) (st' : Z),
      upstream_delivers penv w' key q st' data → (200 ≤ st' ≤ 299)%Z →
      outcome (post_api_ai cfg penv w' req) = outcome (post_api_ai cfg penv w req).
Proof.
  intros Hq Hk Hu Hst.
  rewrite (stage_delivers cfg penv w req q key st data Hq Hk Hu).
  split; [reflexivity|]. split.
  - cbn [trace fst]. unfold http_error_log.
    by rewrite (api_ok_false st data Hst).
  - intros w' st' Hu' _.
    by rewrite (stage_delivers cfg penv w' req q key st' data Hq Hk Hu').
Qed.

Lemma non_2xx_json_is_interpreted_witness :
  api_ok (ApiResponse 429 (JsonResolves (Ex.body_with_text Ex.take_with_water))) = false ∧
  outcome (post_api_ai Ex.cfg ∅ (Ex.world_delivers 429 (Ex.body_with_text Ex.take_with_water))
             Ex.req_hello)
  = Normal (replied 200 Ex.take_with_water).
Proof.
  split; [reflexivity|].
  apply (non_2xx_json_is_interpreted Ex.cfg ∅ _ Ex.req_hello "hello" "k" 429
           (Ex.body_with_text Ex.take_with_water)).
  - split; [reflexivity | discriminate].
  - split; [reflexivity | discriminate].
  - reflexivity.
  - lia.
Defined.

(** ** Process configuration *)

(** C8 (as amended).  The API key and the port are read once, at startup.
    The model name is read from the process environment each time a
    request is handled; it is the only part of the environment a request
    reads: two environments that agree on GOOGLE_MODEL give the same
    behaviour, whatever else was changed after startup. *)
Theorem only_model_name_read_per_request
    (env0 penv penv' : env) (w : world) (req : request) :
  penv !! "GOOGLE_MODEL" = penv' !! "GOOGLE_MODEL" →
  post_api_ai (startup env0) penv w req = post_api_ai (startup env0) penv' w req.
Proof.
  intros H. unfold post_api_ai. by rewrite H.
Qed.

Lemma only_model_name_read_per_request_witness :
  Ex.env_with_key !! "GOOGLE_API_KEY" ≠ Ex.env_other_key !! "GOOGLE_API_KEY" ∧
  Ex.env_with_key !! "PORT" ≠ Ex.env_other_key !! "PORT" ∧
  post_api_ai (startup Ex.env_with_key) Ex.env_with_key Ex.world_default_model_only Ex.req_hello
  = post_api_ai (startup Ex.env_with_key) Ex.env_other_key Ex.world_default_model_only
      Ex.req_hello.
Proof.
  split; [vm_compute; discriminate|]. split; [vm_compute; discriminate|].
  apply (only_model_name_read_per_request Ex.env_with_key Ex.env_with_key Ex.env_other_key).
  reflexivity.
Defined.

(** C8 as stated fails: with the configuration computed at startup left
    as it is, naming another model in the process environment afterwards
    changes the address of the outbound call, and with it the response in
    a world where only the default model answers. *)
Lemma model_name_change_after_startup_observed :
  Ex.cfg = startup Ex.env_with_key ∧
  status_of (post_api_ai Ex.cfg Ex.env_with_key Ex.world_default_model_only Ex.req_hello)
    = Some 200%Z ∧
  status_of (post_api_ai Ex.cfg Ex.env_other_model Ex.world_default_model_only Ex.req_hello)
    = Some 500%Z ∧
  post_api_ai Ex.cfg Ex.env_with_key Ex.world_default_model_only Ex.req_hello
  ≠ post_api_ai Ex.cfg Ex.env_other_model Ex.world_default_model_only Ex.req_hello.
Proof.
  split; [reflexivity|]. split; [reflexivity|]. split; [reflexivity|].
  intros H. apply (f_equal status_of) in H. vm_compute in H. discriminate H.
Qed.

(** ** The prompt builder *)

Lemma opt_path_app (v : option json) (ks1 ks2 : list prop_key) :
  opt_path v (ks1 ++ ks2)%list = opt_path (opt_path v ks1) ks2.
Proof. unfold opt_path. apply fold_left_app. Qed.

(** ** The reply on the success path *)

(** C10.  When the upstream body has no safety-block field and the text at
    candidates[0].content.parts[0].text is present but is the empty
    string, the handler responds with status 200 and the fixed fallback
    text, not with the empty string; and whatever the request and the
    upstream, a response with status 200 never carries the empty string as
    its reply. *)
Theorem empty_text_gets_fallback
    (cfg : config) (penv : env) (w : world) (req : request) :
  (∀ (q key : string) (st : Z) (data : json),
     valid_query req q → configured cfg key →
     upstream_delivers penv w key q st data →
     block_reason data = None →
     candidate_text data = Some (JStr EmptyString) →
     outcome (post_api_ai cfg penv w req) = Normal (replied 200 (JStr REPLY_FALLBACK)))
  ∧ (∀ resp : response,
       outcome (post_api_ai cfg penv w req) = Normal resp →
       statusCode resp = 200%Z →
       sent resp ≠ Some (reply_obj (JStr EmptyString))).
Proof.
  split.
  - intros q key st data Hq Hk Hu Hb Ht.
    rewrite (stage_delivers cfg penv w req q key st data Hq Hk Hu).
    cbn [outcome snd]. f_equal. f_equal.
    apply (interpret_falsy_text data (JStr EmptyString)); [by rewrite Hb | done | done].
  - intros resp Hr Hs Hsent.
    destruct (post_api_ai_outcome cfg penv w req resp Hr)
      as [->|[->|[->|[data ->]]]]; try discriminate Hs.
    assert (E : interpret data = JStr EmptyString).
    { apply reply_obj_inj. cbn [replied sent] in Hsent.
      exact (f_equal (default JNull) Hsent). }
    pose proof (interpret_truthy data) as T. rewrite E in T. discriminate T.
Qed.

Lemma empty_text_gets_fallback_witness :
  outcome (post_api_ai Ex.cfg ∅ (Ex.world_delivers 200 (Ex.body_with_text (JStr EmptyString)))
             Ex.req_hello)
    = Normal (replied 200 (JStr REPLY_FALLBACK))
  ∧ sent (replied 200 (JStr REPLY_FALLBACK)) ≠ Some (reply_obj (JStr EmptyString)).
Proof.
  destruct (empty_text_gets_fallback Ex.cfg ∅
              (Ex.world_delivers 200 (Ex.body_with_text (JStr EmptyString))) Ex.req_hello)
    as [A B].
  assert (E : outcome (post_api_ai Ex.cfg ∅
                         (Ex.world_delivers 200 (Ex.body_with_text (JStr EmptyString)))
                         Ex.req_hello)
              = Normal (replied 200 (JStr REPLY_FALLBACK))).
  { apply (A "hello" "k" 200%Z (Ex.body_with_text (JStr EmptyString))).
    - split; [reflexivity | discriminate].
    - split; [reflexivity | discriminate].
    - reflexivity.
    - reflexivity.
    - reflexivity. }
  split; [exact E|].
  apply (B (replied 200 (JStr REPLY_FALLBACK)) E). reflexivity.
Defined.

(** ** The handler as a whole *)

Lemma valid_query_unique (req : request) (q q' : string) :
  valid_query req q → valid_query req q' → q = q'.
Proof. intros [H _] [H' _]. congruence. Qed.

Lemma configured_unique (cfg : config) (k k' : string) :
  configured cfg k → configured cfg k' → k = k'.
Proof. intros [H _] [H' _]. congruence. Qed.

Lemma outbound_calls_delivers (ev : event) (st : Z) (data : json) :
  is_fetch ev = true →
  outbound_calls (ev :: http_error_log st data ++ blocked_log data) = [ev].
Proof.
  intros H. unfold outbound_calls, http_error_log, blocked_log.
  cbn [List.filter]. rewrite H.
  destruct (negb _); destruct (truthy_opt _); reflexivity.
Qed.

(** X1.  No exception leaves the handler, whatever the configuration, the
    environment, the upstream and the request.  The handler stays pending
    for ever exactly when the query is valid, a key is configured and the
    upstream call never settles (the source sets no timeout).  Whenever
    it responds, the status is 200, 400 or 500 and the body handed to
    res.json is an object { reply: v }, received by the caller as
    { reply: v' } with v' the serialised v. *)
Theorem handler_never_throws
    (cfg : config) (penv : env) (w : world) (req : request) :
  (∀ e, outcome (post_api_ai cfg penv w req) ≠ Throw e)
  ∧ (outcome (post_api_ai cfg penv w req) = Pending
     ↔ ∃ q key, valid_query req q ∧ configured cfg key ∧ upstream_hangs penv w key q)
  ∧ (∀ resp, outcome (post_api_ai cfg penv w req) = Normal resp →
       (statusCode resp = 200 ∨ statusCode resp = 400 ∨ statusCode resp = 500)%Z
       ∧ ∃ v, sent resp = Some (reply_obj v)
              ∧ received resp = Some (reply_obj (on_wire v))).
Proof.
  split_and!.
  - intros e.
    destruct (post_api_ai_cases cfg penv w req)
      as [[_ ->]|[(q & _ & _ & ->)|[(q & key & e' & _ & _ & _ & ->)
         |[(q & key & st & data & _ & _ & _ & ->)|(q & key & _ & _ & _ & ->)]]]];
      discriminate.
  - split.
    + destruct (post_api_ai_cases cfg penv w req)
        as [[_ ->]|[(q & _ & _ & ->)|[(q & key & e' & _ & _ & _ & ->)
           |[(q & key & st & data & _ & _ & _ & ->)|(q & key & Hq & Hk & Hh & ->)]]]];
        try discriminate.
      intros _. by exists q, key.
    + intros (q & key & Hq & Hk & Hh).
      by rewrite (stage_hangs cfg penv w req q key Hq Hk Hh).
  - intros resp Hr.
    assert (∃ c v, resp = replied c v ∧ (c = 200 ∨ c = 400 ∨ c = 500)%Z)
      as (c & v & -> & Hc).
    { destruct (post_api_ai_outcome cfg penv w req resp Hr)
        as [->|[->|[->|[data ->]]]]; eexists _, _; (split; [reflexivity|]); lia. }
    split; [exact Hc|]. exists v. split; [reflexivity|].
    unfold received, replied. cbn [sent]. by rewrite on_wire_reply_obj.
Qed.

Lemma handler_never_throws_witness :
  outcome (post_api_ai Ex.cfg ∅ ExLog.world_hangs Ex.req_hello) = Pending.
Proof.
  apply (handler_never_throws Ex.cfg ∅ ExLog.world_hangs Ex.req_hello).
  exists "hello", "k".
  split_and!; [split; [reflexivity | discriminate]
              | split; [reflexivity | discriminate] | left; reflexivity].
Defined.

(** X2.  The handler makes at most one outbound call per request: there
    is no retry, whatever the upstream answers. *)
Theorem at_most_one_outbound_call
    (cfg : config) (penv : env) (w : world) (req : request) :
  (List.length (outbound_calls (trace (post_api_ai cfg penv w req))) ≤ 1)%nat.
Proof.
  destruct (post_api_ai_cases cfg penv w req)
    as [[_ ->]|[(q & _ & _ & ->)|[(q & key & e & _ & _ & _ & ->)
       |[(q & key & st & data & _ & _ & _ & ->)|(q & key & _ & _ & _ & ->)]]]];
    cbn [trace fst]; try (cbn; lia).
  rewrite outbound_calls_delivers by reflexivity. cbn; lia.
Qed.

(** X3.  For a valid query and a configured key the handler makes exactly
    one outbound call, whatever the upstream then answers: a POST to the
    address built from the model name and the key, with the header
    Content-Type: application/json and the serialised payload of the
    prompt builder for that query as body. *)
Theorem valid_request_calls_upstream_once
    (cfg : config) (penv : env) (w : world) (req : request) (q key : string) :
  valid_query req q → configured cfg key →
  outbound_calls (trace (post_api_ai cfg penv w req))
  = [Fetch ("https://generativelanguage.googleapis.com/v1/models/"
            ++ env_or (penv !! "GOOGLE_MODEL") "gemini-2.5-flash"
            ++ ":generateContent?key=" ++ key)
       {| method := "POST";
          headers := [("Content-Type", "application/json")];
          body := JSON_stringify (buildGeminiBody (JStr q)) |}].
Proof.
  intros Hq Hk.
  destruct (post_api_ai_cases cfg penv w req)
    as [[Hi _]|[(q' & _ & Hn & _)|[(q' & key' & e & Hq' & Hk' & _ & ->)
       |[(q' & key' & st & data & Hq' & Hk' & _ & ->)|(q' & key' & Hq' & Hk' & _ & ->)]]]].
  - by destruct (invalid_not_valid req Hi q).
  - by destruct (Hn key).
  - rewrite (valid_query_unique req q q' Hq Hq'), (configured_unique cfg key key' Hk Hk').
    reflexivity.
  - rewrite (valid_query_unique req q q' Hq Hq'), (configured_unique cfg key key' Hk Hk').
    cbn [trace fst]. by rewrite outbound_calls_delivers.
  - rewrite (valid_query_unique req q q' Hq Hq'), (configured_unique cfg key key' Hk Hk').
    reflexivity.
Qed.

Lemma valid_request_calls_upstream_once_witness :
  List.length (outbound_calls
            (trace (post_api_ai Ex.cfg ∅ (Ex.world_rejects Ex.econnreset) Ex.req_hello)))
  = 1%nat.
Proof.
  rewrite (valid_request_calls_upstream_once Ex.cfg ∅ (Ex.world_rejects Ex.econnreset)
             Ex.req_hello "hello" "k").
  - reflexivity.
  - split; [reflexivity | discriminate].
  - split; [reflexivity | discriminate].
Defined.

(** X4.  A key that is the empty string counts as no key: every valid
    request gets status 500 with the not-configured text and no outbound
    call is made. *)
Theorem empty_key_not_configured
    (cfg : config) (penv : env) (w : world) (req : request) (q : string) :
  GOOGLE_API_KEY cfg = Some EmptyString →
  valid_query req q →
  post_api_ai cfg penv w req = ([], Normal (replied 500 (JStr REPLY_NOT_CONFIGURED))).
Proof.
  intros Hk Hq. apply (stage_not_configured cfg penv w req q Hq).
  intros key [Hk' Hne]. rewrite Hk in Hk'. injection Hk' as <-. by apply Hne.
Qed.

Lemma empty_key_not_configured_witness :
  post_api_ai ExLog.cfg_empty_key ∅ (Ex.world_delivers 200 Ex.body_empty) Ex.req_hello
  = ([], Normal (replied 500 (JStr REPLY_NOT_CONFIGURED))).
Proof.
  apply (empty_key_not_configured ExLog.cfg_empty_key ∅ _ Ex.req_hello "hello").
  - reflexivity.
  - split; [reflexivity | discriminate].
Defined.

(** X5.  A model name that is the empty string counts as no model name:
    the handler behaves as it does when GOOGLE_MODEL is not set, calling
    the default model gemini-2.5-flash. *)
Theorem empty_model_name_defaults
    (cfg : config) (penv : env) (w : world) (req : request) :
  penv !! "GOOGLE_MODEL" = Some EmptyString →
  post_api_ai cfg penv w req = post_api_ai cfg (delete "GOOGLE_MODEL" penv) w req
  ∧ model_name penv = "gemini-2.5-flash".
Proof.
  intros H. split.
  - unfold post_api_ai. by rewrite lookup_delete_eq, H.
  - unfold model_name. by rewrite H.
Qed.

Lemma empty_model_name_defaults_witness :
  post_api_ai Ex.cfg ExLog.env_empty_model Ex.world_default_model_only Ex.req_hello
  = post_api_ai Ex.cfg (delete "GOOGLE_MODEL" ExLog.env_empty_model)
      Ex.world_default_model_only Ex.req_hello
  ∧ model_name ExLog.env_empty_model = "gemini-2.5-flash".
Proof.
  apply (empty_model_name_defaults Ex.cfg ExLog.env_empty_model).
  reflexivity.
Defined.

(** X6.  The status code tells which path was taken: it is 400 exactly
    when the query is invalid, 200 exactly when the query is valid, a key
    is configured and the upstream delivered a body that parses as JSON,
    and 500 in every other case. *)
Theorem status_identifies_path
    (cfg : config) (penv : env) (w : world) (req : request) :
  (status_of (post_api_ai cfg penv w req) = Some 400%Z ↔ invalid_query req)
  ∧ (status_of (post_api_ai cfg penv w req) = Some 200%Z
     ↔ ∃ q key st data, valid_query req q ∧ configured cfg key
                        ∧ upstream_delivers penv w key q st data)
  ∧ (status_of (post_api_ai cfg penv w req) = Some 500%Z
     ↔ ∃ q, valid_query req q
            ∧ ((∀ key, ¬ configured cfg key)
               ∨ ∃ key e, configured cfg key ∧ upstream_fails penv w key q e)).
Proof.
  destruct (post_api_ai_cases cfg penv w req)
    as [[Hi E]|[(q & Hq & Hn & E)|[(q & key & e & Hq & Hk & He & E)
       |[(q & key & st & data & Hq & Hk & Hd & E)|(q & key & Hq & Hk & Hh & E)]]]];
    rewrite E; cbn [status_of outcome snd replied statusCode].
  - split_and!; (split; [try discriminate | ]); try done.
    + intros (q & key & st & data & Hq & _). by destruct (invalid_not_valid req Hi q).
    + intros (q & Hq & _). by destruct (invalid_not_valid req Hi q).
  - split_and!; (split; [try discriminate | ]).
    + intros Hi. by destruct (invalid_not_valid req Hi q).
    + intros (q' & key & st & data & _ & Hk & _). by destruct (Hn key).
    + intros _. exists q. split; [done | by left].
    + done.
  - split_and!; (split; [try discriminate | ]).
    + intros Hi. by destruct (invalid_not_valid req Hi q).
    + intros (q' & key' & st & data & Hq' & Hk' & Hd).
      rewrite <- (valid_query_unique req q q' Hq Hq'),
              <- (configured_unique cfg key key' Hk Hk') in Hd.
      unfold upstream_delivers in Hd.
      destruct He as [He|[st' He]]; rewrite He in Hd; discriminate Hd.
    + intros _. exists q. split; [done|]. right. by exists key, e.
    + done.
  - split_and!; (split; [try discriminate | ]).
    + intros Hi. by destruct (invalid_not_valid req Hi q).
    + intros _. by exists q, key, st, data.
    + done.
    + intros (q' & Hq' & [Hn|(key' & e & Hk' & He)]); [by destruct (Hn key)|].
      rewrite <- (valid_query_unique req q q' Hq Hq'),
              <- (configured_unique cfg key key' Hk Hk') in He.
      unfold upstream_delivers in Hd.
      destruct He as [He|[st' He]]; rewrite He in Hd; discriminate Hd.
  - split_and!; (split; [try discriminate | ]).
    + intros Hi. by destruct (invalid_not_valid req Hi q).
    + intros (q' & key' & st & data & Hq' & Hk' & Hd).
      rewrite <- (valid_query_unique req q q' Hq Hq'),
              <- (configured_unique cfg key key' Hk Hk') in Hd.
      unfold upstream_delivers in Hd.
      destruct Hh as [Hh|[st' Hh]]; rewrite Hh in Hd; discriminate Hd.
    + intros (q' & Hq' & [Hn|(key' & e & Hk' & He)]); [by destruct (Hn key)|].
      rewrite <- (valid_query_unique req q q' Hq Hq'),
              <- (configured_unique cfg key key' Hk Hk') in He.
      destruct Hh as [Hh|[st' Hh]], He as [He|[st'' He]];
        rewrite He in Hh; discriminate Hh.
Qed.

Lemma status_identifies_path_witness :
  status_of (post_api_ai Ex.cfg ∅ (Ex.world_delivers 200 Ex.body_empty) Ex.req_no_body)
    = Some 400%Z
  ∧ status_of (post_api_ai Ex.cfg ∅ (Ex.world_delivers 503 Ex.body_empty) Ex.req_hello)
    = Some 200%Z.
Proof.
  split.
  - apply (status_identifies_path Ex.cfg ∅ (Ex.world_delivers 200 Ex.body_empty)
             Ex.req_no_body).
    left. reflexivity.
  - apply (status_identifies_path Ex.cfg ∅ (Ex.world_delivers 503 Ex.body_empty)
             Ex.req_hello).
    exists "hello", "k", 503%Z, Ex.body_empty.
    split_and!; [split; [reflexivity | discriminate]
                | split; [reflexivity | discriminate] | reflexivity].
Defined.

Lemma non_object_paths (data : json) (k : prop_key) (ks : list prop_key) :
  (∀ m, data ≠ JObj m) → (∀ i, k ≠ Index i) →
  opt_path (Some data) (k :: ks) = None.
Proof.
  intros Hobj Hk.
  assert (E : opt_chain (Some data) k = None).
  { destruct data as [|b|f|s|l|m]; try reflexivity.
    - destruct k as [n|i]; [reflexivity | by destruct (Hk i)].
    - destruct k as [n|i]; [reflexivity | by destruct (Hk i)].
    - by destruct (Hobj m). }
  unfold opt_path. cbn [fold_left]. rewrite E.
  induction ks as [|k' ks IH]; [reflexivity | exact IH].
Qed.

(** X7.  An upstream body that parses as JSON but is not an object (null,
    a boolean, a number, a string, an array) raises no error in the
    handler: neither chain finds anything and the response is status 200
    with the fallback text. *)
Theorem non_object_body_gets_fallback
    (cfg : config) (penv : env) (w : world) (req : request)
    (q key : string) (st : Z) (data : json) :
  valid_query req q → configured cfg key →
  upstream_delivers penv w key q st data →
  (∀ m, data ≠ JObj m) →
  outcome (post_api_ai cfg penv w req) = Normal (replied 200 (JStr REPLY_FALLBACK)).
Proof.
  intros Hq Hk Hu Hobj.
  rewrite (stage_delivers cfg penv w req q key st data Hq Hk Hu).
  cbn [outcome snd]. f_equal. f_equal.
  apply interpret_no_text.
  - unfold block_reason, block_reason_path. by rewrite non_object_paths.
  - unfold candidate_text, text_path. by rewrite non_object_paths.
Qed.

Lemma non_object_body_gets_fallback_witness :
  outcome (post_api_ai Ex.cfg ∅ (Ex.world_delivers 200 JNull) Ex.req_hello)
  = Normal (replied 200 (JStr REPLY_FALLBACK)).
Proof.
  apply (non_object_body_gets_fallback Ex.cfg ∅ _ Ex.req_hello "hello" "k" 200 JNull).
  - split; [reflexivity | discriminate].
  - split; [reflexivity | discriminate].
  - reflexivity.
  - discriminate.
Defined.

Lemma delivered_body (st st' : Z) (d data : json) (key q : string) (penv : env) :
  upstream_delivers penv (Ex.world_delivers st d) key q st' data → data = d.
Proof.
  unfold upstream_delivers, upstream, Ex.world_delivers. cbn [fetch]. intros H.
  exact (f_equal (fun o => match o with
                           | FetchResolves (ApiResponse _ (JsonResolves x)) => x
                           | _ => d
                           end) (eq_sym H)).
Qed.

(** X8.  Provided the upstream never delivers a truthy text that is not
    a string, every response of the handler carries a non-empty string as
    reply, received by the caller as it is; and that string is either one
    of the five fixed texts of the source or the text the upstream
    delivered at candidates[0].content.parts[0].text, passed on
    unchanged. *)
Theorem reply_is_nonempty_string
    (cfg : config) (penv : env) (w : world) (req : request) (resp : response) :
  (∀ key q st data t,
     upstream_delivers penv w key q st data →
     candidate_text data = Some t → truthy t = true → typeof_string t = true) →
  outcome (post_api_ai cfg penv w req) = Normal resp →
  ∃ (c : Z) (s : string),
    resp = replied c (JStr s)
    ∧ s ≠ EmptyString
    ∧ received resp = Some (reply_obj (JStr s))
    ∧ (In s fixed_replies
       ∨ ∃ q key st data,
           valid_query req q ∧ configured cfg key
           ∧ upstream_delivers penv w key q st data
           ∧ candidate_text data = Some (JStr s)).
Proof.
  intros Hstr Hr.
  assert (F : ∀ c s, In s fixed_replies → s ≠ EmptyString →
            ∃ (c' : Z) (s' : string),
              replied c (JStr s) = replied c' (JStr s')
              ∧ s' ≠ EmptyString
              ∧ received (replied c (JStr s)) = Some (reply_obj (JStr s'))
              ∧ (In s' fixed_replies
                 ∨ ∃ q key st data,
                     valid_query req q ∧ configured cfg key
                     ∧ upstream_delivers penv w key q st data
                     ∧ candidate_text data = Some (JStr s'))).
  { intros c s Hin Hne. exists c, s. split_and!; [reflexivity | exact Hne | | by left].
    unfold received, replied. cbn [sent]. by rewrite on_wire_reply_obj. }
  destruct (post_api_ai_cases cfg penv w req)
    as [[_ E]|[(q & _ & _ & E)|[(q & key & e & _ & _ & _ & E)
       |[(q & key & st & data & Hq & Hk & Hd & E)|(q & key & _ & _ & _ & E)]]]];
    rewrite E in Hr; cbn [outcome snd] in Hr; try discriminate Hr;
    injection Hr as <-.
  - apply F; [cbn; tauto | discriminate].
  - apply F; [cbn; tauto | discriminate].
  - apply F; [cbn; tauto | discriminate].
  - unfold interpret.
    destruct (truthy_opt (block_reason data)); [apply F; [cbn; tauto | discriminate]|].
    destruct (candidate_text data) as [t|] eqn:Ht;
      [|apply F; [cbn; tauto | discriminate]].
    destruct (truthy t) eqn:Htr; [|apply F; [cbn; tauto | discriminate]].
    pose proof (Hstr key q st data t Hd Ht Htr) as Hs.
    destruct t as [|b|f|s|l|m]; try discriminate Hs.
    exists 200%Z, s. split_and!.
    + reflexivity.
    + intros ->. discriminate Htr.
    + unfold received, replied. cbn [sent]. by rewrite on_wire_reply_obj.
    + right. by exists q, key, st, data.
Qed.

Lemma reply_is_nonempty_string_witness :
  ∃ (c : Z) (s : string),
    replied 200 Ex.take_with_water = replied c (JStr s)
    ∧ s ≠ EmptyString
    ∧ received (replied 200 Ex.take_with_water) = Some (reply_obj (JStr s))
    ∧ (In s fixed_replies
       ∨ ∃ q key st data,
           valid_query Ex.req_hello q ∧ configured Ex.cfg key
           ∧ upstream_delivers ∅
               (Ex.world_delivers 200 (Ex.body_with_text Ex.take_with_water)) key q st data
           ∧ candidate_text data = Some (JStr s)).
Proof.
  apply (reply_is_nonempty_string Ex.cfg ∅
           (Ex.world_delivers 200 (Ex.body_with_text Ex.take_with_water)) Ex.req_hello).
  - intros key q st data t Hd Ht _.
    apply delivered_body in Hd. subst data.
    vm_compute in Ht. injection Ht as <-. reflexivity.
  - reflexivity.
Defined.

(** X9.  A plain success writes nothing to the error log: for a valid
    query and a configured key, when the upstream answers with a 2xx
    status and a body whose safety-block field is absent or falsy, the
    only event of the handler is the outbound call. *)
Theorem success_is_silent
    (cfg : config) (penv : env) (w : world) (req : request)
    (q key : string) (st : Z) (data : json) :
  valid_query req q → configured cfg key →
  upstream_delivers penv w key q st data →
  (200 ≤ st < 300)%Z →
  truthy_opt (block_reason data) = false →
  trace (post_api_ai cfg penv w req)
  = [Fetch (gemini_url (model_name penv) key) (gemini_init (buildGeminiBody (JStr q)))].
Proof.
  intros Hq Hk Hu Hst Hb.
  rewrite (stage_delivers cfg penv w req q key st data Hq Hk Hu).
  cbn [trace fst]. unfold http_error_log, blocked_log, api_ok. cbn [api_status].
  rewrite Hb.
  assert ((200 <=? st)%Z && (st <? 300)%Z = true) as ->.
  { apply andb_true_iff. rewrite Z.leb_le, Z.ltb_lt. lia. }
  reflexivity.
Qed.

Lemma success_is_silent_witness :
  trace (post_api_ai Ex.cfg ∅
           (Ex.world_delivers 200 (Ex.body_with_text Ex.take_with_water)) Ex.req_hello)
  = [Fetch (gemini_url (model_name ∅) "k") (gemini_init (buildGeminiBody (JStr "hello")))].
Proof.
  apply (success_is_silent Ex.cfg ∅ _ Ex.req_hello "hello" "k" 200
           (Ex.body_with_text Ex.take_with_water)).
  - split; [reflexivity | discriminate].
  - split; [reflexivity | discriminate].
  - reflexivity.
  - lia.
  - reflexivity.
Defined.

(** X10.  A failed upstream call is logged once, with the error itself:
    after the outbound call the handler writes one line to the error log
    that carries the error value, and nothing else. *)
Theorem upstream_failure_is_logged
    (cfg : config) (penv : env) (w : world) (req : request)
    (q key : string) (e : js_error) :
  valid_query req q → configured cfg key →
  upstream_fails penv w key q e →
  trace (post_api_ai cfg penv w req)
  = [Fetch (gemini_url (model_name penv) key) (gemini_init (buildGeminiBody (JStr q)));
     ConsoleError [LogStr "Gemini API error:"; LogErr e]].
Proof.
  intros Hq Hk [H|[st H]].
  - by rewrite (stage_fetch_rejects cfg penv w req q key e Hq Hk H).
  - by rewrite (stage_json_rejects cfg penv w req q key st e Hq Hk H).
Qed.

Lemma upstream_failure_is_logged_witness :
  trace (post_api_ai Ex.cfg ∅ (Ex.world_rejects Ex.econnreset) Ex.req_hello)
  = [Fetch (gemini_url (model_name ∅) "k") (gemini_init (buildGeminiBody (JStr "hello")));
     ConsoleError [LogStr "Gemini API error:"; LogErr Ex.econnreset]].
Proof.
  apply (upstream_failure_is_logged Ex.cfg ∅ _ Ex.req_hello "hello" "k" Ex.econnreset).
  - split; [reflexivity | discriminate].
  - split; [reflexivity | discriminate].
  - left. reflexivity.
Defined.

Lemma block_reason_feedback (data : json) :
  truthy_opt (block_reason data) = true →
  ∃ pf, get_property data (Name "promptFeedback") = Some pf
        ∧ truthy_opt (get_property pf (Name "blockReason")) = true.
Proof.
  unfold block_reason, block_reason_path, opt_path. cbn [fold_left].
  intros H.
  destruct data as [|b|f|s|l|m]; cbn [opt_chain get_property] in H; try discriminate H.
  cbn [get_property].
  destruct (m !! "promptFeedback") as [pf|]; [|discriminate H].
  exists pf. split; [reflexivity|].
  destruct pf; try exact H; discriminate H.
Qed.

(** X11.  A safety block is logged with the feedback of the upstream:
    when the safety-block field is truthy, the last event of the handler
    is one line in the error log that carries the promptFeedback object
    of the body, which is then defined. *)
Theorem safety_block_is_logged
    (cfg : config) (penv : env) (w : world) (req : request)
    (q key : string) (st : Z) (data : json) :
  valid_query req q → configured cfg key →
  upstream_delivers penv w key q st data →
  truthy_opt (block_reason data) = true →
  ∃ pf, get_property data (Name "promptFeedback") = Some pf
        ∧ last (trace (post_api_ai cfg penv w req))
          = Some (ConsoleError [LogStr "Prompt blocked:"; LogVal (Some pf)]).
Proof.
  intros Hq Hk Hu Hb.
  destruct (block_reason_feedback data Hb) as (pf & Hpf & _).
  exists pf. split; [exact Hpf|].
  rewrite (stage_delivers cfg penv w req q key st data Hq Hk Hu).
  cbn [trace fst]. unfold blocked_log. rewrite Hb, Hpf.
  rewrite app_comm_cons. apply last_snoc.
Qed.

Lemma safety_block_is_logged_witness :
  ∃ pf, get_property (Ex.body_with_block (JStr "SAFETY") Ex.take_with_water)
          (Name "promptFeedback") = Some pf
        ∧ last (trace (post_api_ai Ex.cfg ∅
                         (Ex.world_delivers 200
                            (Ex.body_with_block (JStr "SAFETY") Ex.take_with_water))
                         Ex.req_hello))
          = Some (ConsoleError [LogStr "Prompt blocked:"; LogVal (Some pf)]).
Proof.
  apply (safety_block_is_logged Ex.cfg ∅ _ Ex.req_hello "hello" "k" 200
           (Ex.body_with_block (JStr "SAFETY") Ex.take_with_water)).
  - split; [reflexivity | discriminate].
  - split; [reflexivity | discriminate].
  - reflexivity.
  - reflexivity.
Defined.

(** ** The request logger *)

Lemma log_lines_handler (t : list event) : log_lines (map HandlerEvent t) = [].
Proof. induction t as [|ev t IH]; [reflexivity | exact IH]. Qed.

Lemma handler_events_handler (t : list event) : handler_events (map HandlerEvent t) = t.
Proof.
  induction t as [|ev t IH]; [reflexivity|].
  change (ev :: handler_events (map HandlerEvent t) = ev :: t). by rewrite IH.
Qed.

Lemma log_lines_cons (l : log_line) (t : list server_event) :
  log_lines (ConsoleLog l :: t) = l :: log_lines t.
Proof. reflexivity. Qed.

Lemma log_lines_app (t1 t2 : list server_event) :
  log_lines (t1 ++ t2) = (log_lines t1 ++ log_lines t2)%list.
Proof. apply omap_app. Qed.

Lemma handler_events_cons (l : log_line) (t : list server_event) :
  handler_events (ConsoleLog l :: t) = handler_events t.
Proof. reflexivity. Qed.

Lemma handler_events_app (t1 t2 : list server_event) :
  handler_events (t1 ++ t2) = (handler_events t1 ++ handler_events t2)%list.
Proof. apply omap_app. Qed.

Lemma log_lines_logger (rd : readings) (req : http_request) (t : list event) (r : response) :
  log_lines (fst (request_logger rd req (t, Normal r)))
  = (incoming rd req (request_id rd req)
     :: match sent r with
        | Some _ =>
            if finish_fires rd
            then [on_finish rd req (request_id rd req) (now_start rd) r]
            else []
        | None => []
        end)%list.
Proof.
  unfold request_logger. cbn [fst].
  rewrite log_lines_cons, log_lines_app, log_lines_handler.
  destruct (sent r); [|reflexivity]. by destruct (finish_fires rd).
Qed.

Lemma handler_events_logger (rd : readings) (req : http_request) (next : M response) :
  handler_events (fst (request_logger rd req next)) = trace next.
Proof.
  destruct next as [t [r|e|]]; unfold request_logger; cbn [fst trace].
  - rewrite handler_events_cons, handler_events_app, handler_events_handler.
    destruct (sent r); [destruct (finish_fires rd)|]; cbn; by rewrite app_nil_r.
  - by rewrite handler_events_cons, handler_events_handler.
  - by rewrite handler_events_cons, handler_events_handler.
Qed.

Lemma response_id_logger (rd : readings) (req : http_request) (next : M response) :
  response_id (request_logger rd req next) = Some (request_id rd req).
Proof.
  unfold response_id, request_logger.
  destruct next as [t [r|e|]]; cbn [snd srv_headers]; apply lookup_insert_eq.
Qed.

(** X12.  Correlation: when the rest of the chain ends normally, the
    response carries a header X-Request-Id, and every line the logger
    prints for the request carries the value of that header as its id. *)
Theorem log_lines_carry_response_id
    (rd : readings) (req : http_request) (next : M response) (r : response) :
  outcome next = Normal r →
  ∃ id, response_id (request_logger rd req next) = Some id
        ∧ Forall (fun l => log_id l = id) (log_lines (fst (request_logger rd req next))).
Proof.
  destruct next as [t c]. cbn [outcome snd]. intros ->.
  exists (request_id rd req). split.
  - apply response_id_logger.
  - rewrite log_lines_logger. constructor; [reflexivity|].
    destruct (sent r); [|constructor].
    destruct (finish_fires rd); [constructor; [reflexivity | constructor] | constructor].
Qed.

Lemma log_lines_carry_response_id_witness :
  ∃ id, response_id (request_logger ExLog.rd (ExLog.req_with_id None)
                       ([], Normal (replied 200 Ex.take_with_water))) = Some id
        ∧ Forall (fun l => log_id l = id)
            (log_lines (fst (request_logger ExLog.rd (ExLog.req_with_id None)
                               ([], Normal (replied 200 Ex.take_with_water))))).
Proof.
  apply (log_lines_carry_response_id ExLog.rd (ExLog.req_with_id None)
           ([], Normal (replied 200 Ex.take_with_water)) (replied 200 Ex.take_with_water)).
  reflexivity.
Defined.

(** X13.  An inbound header x-request-id that is not empty is echoed
    unchanged as the response header X-Request-Id, whatever randomUUID
    would have returned and whatever the rest of the chain does: the
    header is set before the chain runs. *)
Theorem inbound_request_id_echoed
    (rd : readings) (req : http_request) (next : M response) (h : string) :
  req_headers req !! "x-request-id" = Some h →
  h ≠ EmptyString →
  response_id (request_logger rd req next) = Some h.
Proof.
  intros Hh Hne. rewrite response_id_logger. f_equal.
  unfold request_id, env_or. by rewrite Hh, (string_truthy_ne h Hne).
Qed.

Lemma inbound_request_id_echoed_witness :
  response_id (request_logger ExLog.rd (ExLog.req_with_id (Some "abc-123"))
                 ([], Throw Ex.econnreset))
  = Some "abc-123".
Proof.
  apply (inbound_request_id_echoed ExLog.rd (ExLog.req_with_id (Some "abc-123"))
           ([], Throw Ex.econnreset) "abc-123").
  - reflexivity.
  - discriminate.
Defined.

(** X14.  When the inbound header x-request-id is missing, or is the
    empty string, the response header X-Request-Id is the value that
    randomUUID returned, whatever the rest of the chain does. *)
Theorem missing_request_id_generated
    (rd : readings) (req : http_request) (next : M response) :
  req_headers req !! "x-request-id" = None
  ∨ req_headers req !! "x-request-id" = Some EmptyString →
  response_id (request_logger rd req next) = Some (uuid rd).
Proof.
  intros Hh. rewrite response_id_logger. f_equal.
  unfold request_id, env_or. by destruct Hh as [-> | ->].
Qed.

Lemma missing_request_id_generated_witness :
  response_id (request_logger ExLog.rd (ExLog.req_with_id (Some EmptyString))
                 ([], Throw Ex.econnreset))
  = Some (uuid ExLog.rd).
Proof.
  apply (missing_request_id_generated ExLog.rd (ExLog.req_with_id (Some EmptyString))
           ([], Throw Ex.econnreset)).
  right. reflexivity.
Defined.

(** X15.  When the rest of the chain sends a response, the logger prints
    the start line before every event of the chain.  If the response
    emits finish, the end line follows them, with the same id, method and
    url, the status code of the response that was sent and, as duration,
    the difference of the two readings of Date.now: two lines in all.  If
    the response does not emit finish (the client is gone), no end line
    is printed: one line in all.  The events and the response of the
    chain are left as they are. *)
Theorem request_end_reports_response
    (rd : readings) (req : http_request) (t : list event) (r : response) (b : json) :
  sent r = Some b →
  ∃ (ts ts' : iso_string) (id method url remote userAgent : string),
    fst (request_logger rd req (t, Normal r))
    = (ConsoleLog (request_start ts id method url remote userAgent)
       :: map HandlerEvent t
       ++ (if finish_fires rd
           then [ConsoleLog (request_end ts' id method url (statusCode r)
                               (now_finish rd - now_start rd))]
           else []))%list
    ∧ handler_events (fst (request_logger rd req (t, Normal r))) = t
    ∧ List.length (log_lines (fst (request_logger rd req (t, Normal r))))
      = (if finish_fires rd then 2 else 1)%nat
    ∧ srv_outcome (snd (request_logger rd req (t, Normal r))) = Normal r.
Proof.
  intros Hs. eexists _, _, _, _, _, _, _. split_and!.
  - unfold request_logger. cbn [fst]. rewrite Hs.
    destruct (finish_fires rd); reflexivity.
  - apply (handler_events_logger rd req (t, Normal r)).
  - rewrite log_lines_logger, Hs. by destruct (finish_fires rd).
  - reflexivity.
Qed.

Lemma request_end_reports_response_witness :
  ∃ (ts ts' : iso_string) (id method url remote userAgent : string),
    fst (request_logger ExLog.rd_client_gone (ExLog.req_with_id None)
           ([], Normal (replied 400 (JStr REPLY_INVALID))))
    = (ConsoleLog (request_start ts id method url remote userAgent)
       :: map HandlerEvent []
       ++ (if finish_fires ExLog.rd_client_gone
           then [ConsoleLog (request_end ts' id method url 400 250)]
           else []))%list
    ∧ handler_events (fst (request_logger ExLog.rd_client_gone (ExLog.req_with_id None)
                             ([], Normal (replied 400 (JStr REPLY_INVALID))))) = []
    ∧ List.length (log_lines (fst (request_logger ExLog.rd_client_gone
                                     (ExLog.req_with_id None)
                                     ([], Normal (replied 400 (JStr REPLY_INVALID))))))
      = (if finish_fires ExLog.rd_client_gone then 2 else 1)%nat
    ∧ srv_outcome (snd (request_logger ExLog.rd_client_gone (ExLog.req_with_id None)
                          ([], Normal (replied 400 (JStr REPLY_INVALID)))))
      = Normal (replied 400 (JStr REPLY_INVALID)).
Proof.
  apply (request_end_reports_response ExLog.rd_client_gone (ExLog.req_with_id None) []
           (replied 400 (JStr REPLY_INVALID)) (reply_obj (JStr REPLY_INVALID))).
  reflexivity.
Defined.



(** ** The prompt builder and the store *)

Section StoreFrame.
Import Store.

Variables (h : heap).

Lemma new_cell_frame (cs : list cell) (c : cell) :
  new_cell c (h ++ cs)%list = (List.length h + List.length cs, (h ++ (cs ++ [c]))%list).
Proof. unfold new_cell. by rewrite length_app, app_assoc. Qed.

Lemma define_property_frame (cs : list cell) (i : nat) (k : string) (v : value) :
  define_property (List.length h + i) k v (h ++ cs)%list
  = (tt, (h ++ snd (define_property i k v cs))%list).
Proof.
  unfold define_property. rewrite lookup_app_r by lia.
  replace (List.length h + i - List.length h) with i by lia.
  destruct (cs !! i) as [[ps|es]|]; cbn [snd]; try reflexivity.
  by rewrite insert_app_r.
Qed.

Lemma append_element_frame (cs : list cell) (i : nat) (v : value) :
  append_element (List.length h + i) v (h ++ cs)%list
  = (tt, (h ++ snd (append_element i v cs))%list).
Proof.
  unfold append_element. rewrite lookup_app_r by lia.
  replace (List.length h + i - List.length h) with i by lia.
  destruct (cs !! i) as [[ps|es]|]; cbn [snd]; try reflexivity.
  by rewrite insert_app_r.
Qed.

(** What the builder does to a store: it leaves the cells it finds and
    adds six. *)
Lemma buildGeminiBody_store_result (query : value) :
  buildGeminiBody_store query h
  = (List.length h, (h ++ payload_cells (List.length h) query)%list).
Proof.
  unfold buildGeminiBody_store, mbind, St_bind, mret, St_ret, new_object, new_array.
  rewrite <- (app_nil_r h) at 1.
  repeat (rewrite ?new_cell_frame, ?define_property_frame, ?append_element_frame;
          cbn [List.length app snd]).
  rewrite Nat.add_0_r. reflexivity.
Qed.

End StoreFrame.

Section StorePayload.
Import Store.

Lemma lookup_payload_cell (h : heap) (cs : list cell) (i : nat) :
  (h ++ cs)%list !! (List.length h + i) = cs !! i.
Proof.
  rewrite lookup_app_r by lia. f_equal. lia.
Qed.

(** Read back from the store, the object the builder returns is the
    payload of the pure builder. *)
Lemma reify_payload (h : heap) (q : string) :
  reify 5 (h ++ payload_cells (List.length h) (VStr q))%list (VRef (List.length h))
  = Some (buildGeminiBody (JStr q)).
Proof.
  set (H := (h ++ payload_cells (List.length h) (VStr q))%list).
  assert (L : ∀ i, H !! (List.length h + i)
                   = payload_cells (List.length h) (VStr q) !! i)
    by (intros i; apply lookup_payload_cell).
  assert (L0 : H !! List.length h = payload_cells (List.length h) (VStr q) !! 0).
  { rewrite <- (L 0). f_equal. lia. }
  assert (T1 : reify 1 H (VRef (List.length h + 4)) = Some (JObj {[ "text" := JStr systemPrompt ]})).
  { cbn [reify]. rewrite L. reflexivity. }
  assert (T2 : reify 1 H (VRef (List.length h + 5)) = Some (JObj {[ "text" := JStr q ]})).
  { cbn [reify]. rewrite L. reflexivity. }
  assert (P : reify 2 H (VRef (List.length h + 3))
              = Some (JArr [JObj {[ "text" := JStr systemPrompt ]};
                            JObj {[ "text" := JStr q ]}])).
  { change (reify 2 H (VRef (List.length h + 3)))
      with (match H !! (List.length h + 3) with
            | Some (CObj ps) =>
                ms ← mapM (fun kv : string * value =>
                             x ← reify 1 H kv.2; Some (kv.1, x)) ps;
                Some (JObj (list_to_map ms))
            | Some (CArr es) => xs ← mapM (reify 1 H) es; Some (JArr xs)
            | None => None
            end).
    rewrite L. cbn [payload_cells lookup list_lookup mapM].
    rewrite T1, T2. reflexivity. }
  assert (C : reify 3 H (VRef (List.length h + 2))
              = Some (JObj {[ "parts" :=
                   JArr [JObj {[ "text" := JStr systemPrompt ]};
                         JObj {[ "text" := JStr q ]}] ]})).
  { change (reify 3 H (VRef (List.length h + 2)))
      with (match H !! (List.length h + 2) with
            | Some (CObj ps) =>
                ms ← mapM (fun kv : string * value =>
                             x ← reify 2 H kv.2; Some (kv.1, x)) ps;
                Some (JObj (list_to_map ms))
            | Some (CArr es) => xs ← mapM (reify 2 H) es; Some (JArr xs)
            | None => None
            end).
    rewrite L. cbn [payload_cells lookup list_lookup mapM snd].
    rewrite P. reflexivity. }
  assert (A : reify 4 H (VRef (List.length h + 1))
              = Some (JArr [JObj {[ "parts" :=
                   JArr [JObj {[ "text" := JStr systemPrompt ]};
                         JObj {[ "text" := JStr q ]}] ]}])).
  { change (reify 4 H (VRef (List.length h + 1)))
      with (match H !! (List.length h + 1) with
            | Some (CObj ps) =>
                ms ← mapM (fun kv : string * value =>
                             x ← reify 3 H kv.2; Some (kv.1, x)) ps;
                Some (JObj (list_to_map ms))
            | Some (CArr es) => xs ← mapM (reify 3 H) es; Some (JArr xs)
            | None => None
            end).
    rewrite L. cbn [payload_cells lookup list_lookup mapM].
    rewrite C. reflexivity. }
  change (reify 5 H (VRef (List.length h)))
    with (match H !! List.length h with
          | Some (CObj ps) =>
              ms ← mapM (fun kv : string * value =>
                           x ← reify 4 H kv.2; Some (kv.1, x)) ps;
              Some (JObj (list_to_map ms))
          | Some (CArr es) => xs ← mapM (reify 4 H) es; Some (JArr xs)
          | None => None
          end).
  rewrite L0. cbn [payload_cells lookup list_lookup mapM snd].
  rewrite A. reflexivity.
Qed.

End StorePayload.

(** C9.  For every query string q, and in every state of the store, the
    prompt builder returns a new object that reads
    { contents: [ { parts: [ { text: S }, { text: q } ] } ] }, with S the
    fixed system instruction first and the query second and unchanged.
    It has no side effect: every object the store held before the call is
    still there, unchanged, and the result does not depend on the store,
    so two calls with the same query, whenever they are made, give
    payloads that read the same. *)
Theorem buildGeminiBody_pure_payload (q : string) (h : Store.heap) :
  h `prefix_of` (Store.buildGeminiBody_store (Store.VStr q) h).2
  ∧ h !! (Store.buildGeminiBody_store (Store.VStr q) h).1 = None
  ∧ Store.reify 5 (Store.buildGeminiBody_store (Store.VStr q) h).2
      (Store.VRef (Store.buildGeminiBody_store (Store.VStr q) h).1)
    = Some (JObj {[ "contents" :=
        JArr [ JObj {[ "parts" :=
          JArr [ JObj {[ "text" := JStr systemPrompt ]};
                 JObj {[ "text" := JStr q ]} ] ]} ] ]})
  ∧ Store.reify 5 (Store.buildGeminiBody_store (Store.VStr q) h).2
      (Store.VRef (Store.buildGeminiBody_store (Store.VStr q) h).1)
    = Some (buildGeminiBody (JStr q))
  ∧ ∀ h' : Store.heap,
      Store.reify 5 (Store.buildGeminiBody_store (Store.VStr q) h').2
        (Store.VRef (Store.buildGeminiBody_store (Store.VStr q) h').1)
      = Store.reify 5 (Store.buildGeminiBody_store (Store.VStr q) h).2
          (Store.VRef (Store.buildGeminiBody_store (Store.VStr q) h).1).
Proof.
  rewrite buildGeminiBody_store_result. cbn [fst snd].
  split_and!.
  - by eexists.
  - apply lookup_ge_None_2. lia.
  - apply reify_payload.
  - apply reify_payload.
  - intros h'. rewrite buildGeminiBody_store_result. cbn [fst snd].
    by rewrite !reify_payload.
Qed.
